(** * h: a command-line HTTP client (http-request-cli.js, http-cli.js)

    A shallow embedding of the request-building code of the two command
    variants, and the properties of the specification checked against it.

    Conventions of the embedding.

    - A JavaScript string is a [string]: every [ascii] stands for one UTF-16
      code unit below 256.  The string methods below are exact on that range
      (the one exception is recorded at [toUpperCase]).
    - A JavaScript object used as a map ([commander.header], the result of
      [props2json], a header group of the transport) is an association list
      of its own properties in insertion order, with pairwise distinct
      keys.  Assignment [o[k] = v] is [obj_set], which overwrites in place
      or appends, except under the name [__proto__]: there the assignment
      of a string goes to the inherited setter and stores nothing, unless
      the object has an own property of that name.  The order matters
      because [keysToLower] may send two keys to the same lower-case name;
      an integer-like name, which JavaScript enumerates first, never shares
      its lower-case form with another name, so that no lookup depends on
      its place.
    - The file system is a finite map from paths to file contents.
    - What the program prints is a list of [event]s; an exception is the
      [Throw] case of [result]. *)

From Stdlib Require Import ZArith Ascii String Lia.
From stdpp Require Import base strings list gmap.

Local Open Scope Z_scope.

(** ** JavaScript string methods *)

Module JsString.

Definition LF : ascii := "010"%char.
Definition backslash : ascii := "\"%char.

(** The one-character string, and the two-character pattern of the
    regular expression [/\\\n/]. *)
Definition char (c : ascii) : string := String c "".
Definition newline : string := char LF.
Definition backslash_newline : string := String backslash newline.

(** Position of the first [c] in [s], if any. *)
Fixpoint find_char (c : ascii) (s : string) : option nat :=
  match s with
  | "" => None
  | String a s' => if Ascii.eqb a c then Some O else S <$> find_char c s'
  end.

(** [s.indexOf(c)] for a one-character [c]: -1 when [c] does not occur. *)
Definition indexOf (c : ascii) (s : string) : Z :=
  match find_char c s with
  | Some i => Z.of_nat i
  | None => -1
  end.

Fixpoint take (n : nat) (s : string) : string :=
  match n, s with
  | S n', String a s' => String a (take n' s')
  | _, _ => ""
  end.

Fixpoint drop (n : nat) (s : string) : string :=
  match n, s with
  | S n', String _ s' => drop n' s'
  | _, _ => s
  end.

(** [s.substring(from, to)] on non-negative arguments: both are clamped to
    the length and swapped when out of order. *)
Definition substring (from to : nat) (s : string) : string :=
  take (Nat.max from to - Nat.min from to) (drop (Nat.min from to) s).

(** [s.substring(from)]. *)
Definition substring_from (from : nat) (s : string) : string := drop from s.

(** [s.startsWith(p)]. *)
Fixpoint startsWith (p s : string) : bool :=
  match p, s with
  | "", _ => true
  | String a p', String b s' => Ascii.eqb a b && startsWith p' s'
  | String _ _, "" => false
  end.

(** [s.split(c)] for a one-character separator.  The result is never
    empty: the empty string splits into one empty piece. *)
Fixpoint split (c : ascii) (s : string) : list string :=
  match s with
  | "" => [""]
  | String a s' =>
      if Ascii.eqb a c then "" :: split c s'
      else match split c s' with
           | piece :: rest => String a piece :: rest
           | [] => [char a]
           end
  end.

(** [pieces.join(sep)]. *)
Fixpoint join (sep : string) (pieces : list string) : string :=
  match pieces with
  | [] => ""
  | [p] => p
  | p :: rest => p +:+ sep +:+ join sep rest
  end.

(** White space and line terminators removed by [trim], below 256: tab,
    line feed, vertical tab, form feed, carriage return, space and the
    no-break space. *)
Definition is_white (a : ascii) : bool :=
  match N_of_ascii a with
  | 9 | 10 | 11 | 12 | 13 | 32 | 160 => true
  | _ => false
  end%N.

Fixpoint trimStart (s : string) : string :=
  match s with
  | String a s' => if is_white a then trimStart s' else s
  | "" => ""
  end.

Fixpoint trimEnd (s : string) : string :=
  match s with
  | "" => ""
  | String a s' =>
      match trimEnd s' with
      | "" => if is_white a then "" else char a
      | t => String a t
      end
  end.

(** [s.trim()]. *)
Definition trim (s : string) : string := trimEnd (trimStart s).

(** [s.replace(re, rep)] for a regular expression without the [g] flag
    that matches exactly the fixed, non-empty text [pat]: only the
    leftmost occurrence is replaced. *)
Fixpoint replace (pat rep s : string) : string :=
  if startsWith pat s then rep +:+ drop (String.length pat) s
  else match s with
       | "" => ""
       | String a s' => String a (replace pat rep s')
       end.

Definition lower_unit (a : ascii) : ascii :=
  let n := N_of_ascii a in
  if ((65 <=? n) && (n <=? 90)
      || (192 <=? n) && (n <=? 222) && negb (n =? 215))%N
  then ascii_of_N (n + 32) else a.

Definition upper_unit (a : ascii) : ascii :=
  let n := N_of_ascii a in
  if ((97 <=? n) && (n <=? 122)
      || (224 <=? n) && (n <=? 254) && negb (n =? 247))%N
  then ascii_of_N (n - 32) else a.

Fixpoint map_units (f : ascii → ascii) (s : string) : string :=
  match s with
  | "" => ""
  | String a s' => String (f a) (map_units f s')
  end.

(** [s.toLowerCase()]. *)
Definition toLowerCase : string → string := map_units lower_unit.

(** [s.toUpperCase()].  Three code units below 256 have an upper case
    outside the range or of length two (181, 223 and 255) and are left as
    they are; none of them maps onto a letter of [GET], the only text the
    result is compared with. *)
Definition toUpperCase : string → string := map_units upper_unit.

(** A string is truthy when it is not empty. *)
Definition truthy (s : string) : bool := negb (String.eqb s "").

End JsString.

(** ** Objects as insertion-ordered maps *)

Abbreviation obj V := (list (string * V)) (only parsing).

(** The own property [k] of [o] is given the value [v]: overwritten in
    place, or added at the end. *)
Fixpoint obj_define {V} (k : string) (v : V) (o : obj V) : obj V :=
  match o with
  | [] => [(k, v)]
  | (k', v') :: o' =>
      if String.eqb k' k then (k', v) :: o' else (k', v') :: obj_define k v o'
  end.

(** [o[k]], for an own property. *)
Fixpoint obj_get {V} (k : string) (o : obj V) : option V :=
  match o with
  | [] => None
  | (k', v') :: o' => if String.eqb k' k then Some v' else obj_get k o'
  end.

(** [o[k] = v] for a plain object [o] and a value [v] that is not an
    object (every value stored by this program is a string).  Under the
    name [__proto__] the assignment reaches the setter inherited from
    [Object.prototype], which ignores such a value, unless [o] has an own
    property of that name. *)
Definition obj_set {V} (k : string) (v : V) (o : obj V) : obj V :=
  if String.eqb k "__proto__" then
    match obj_get k o with
    | Some _ => obj_define k v o
    | None => o
    end
  else obj_define k v o.

(** One source of [_.assignIn]: every entry of [source], in its order, is
    given to [target]; lodash defines the property rather than assigning
    it when its name is [__proto__]. *)
Definition assign {V} (target source : obj V) : obj V :=
  fold_left (λ t e, obj_define e.1 e.2 t) source target.

(** [_.assignIn(target, source1, source2, ...)]. *)
Definition assignIn {V} (target : obj V) (sources : list (obj V)) : obj V :=
  fold_left assign sources target.

(** The value that the last entry of a list of entries gives to the
    lower-case name [k]. *)
Definition last_named {V} (k : string) (entries : list (string * V)) : option V :=
  snd <$> last (filter (λ e, JsString.toLowerCase e.1 = k) entries).

(** ** Functions that both command variants define alike *)

Import JsString.

(** [keysToLower]: [_.transform] starts from an empty object and visits
    the entries in order. *)
Definition keysToLower {V} (o : obj V) : obj V :=
  fold_left (λ result e, obj_set (toLowerCase e.1) e.2 result) o [].

(** The body of the [reduce] callback of [props2json]. *)
Definition props_line (o : obj string) (line : string) : obj string :=
  let eqIdx := indexOf "=" line in
  let eqIdx := if 0 <? eqIdx then Z.to_nat eqIdx else String.length line in
  let key := trim (substring 0 eqIdx line) in
  let value := trim (substring_from (eqIdx + 1) line) in
  obj_set key value o.

Definition props2json (props : string) : obj string :=
  fold_left props_line (split LF (replace backslash_newline " " props)) [].

(** [addHeader]: the option handler of [-H], called once per occurrence
    with the object accumulated so far.  [headerItems[0]] always exists. *)
Definition addHeader (header : string) (headers : obj string) : obj string :=
  match split "=" header with
  | name :: value :: _ => obj_set name value headers
  | [name] => obj_set name "" headers
  | [] => headers
  end.

(** What commander makes of the [-H] occurrences of a command line. *)
Definition parse_headers (args : list string) : obj string :=
  fold_left (λ headers header, addHeader header headers) args [].

(** The callback mapped over the lines of the cookie file. *)
Definition cookie_pair (v : string) : string :=
  substring 0 (if 0 <? indexOf ";" v then Z.to_nat (indexOf ";" v)
               else String.length v) v.

(** The expression assigned to [cookie] after reading the cookie file. *)
Definition cookie_header (content : string) : string :=
  join "; " (cookie_pair <$> split LF content).

(** The text written to the cookie file: the sentinel is pushed onto the
    array of [Set-Cookie] values, which is then joined. *)
Definition cookie_file_text (cookies : list string) : string :=
  join newline (cookies ++ ["hello=world"]).

(** ** Data of a request *)

Inductive level := Plain | Error | Warning | Success | Verbose.

#[local] Set Warnings "-register-all".

Inductive json (number : Type) :=
| JNull
| JBool (b : bool)
| JNumber (n : number)
| JString (s : string)
| JArray (items : list (json number))
| JObject (members : list (string * json number)).
Arguments JNull {number}.
Arguments JBool {number} b.
Arguments JNumber {number} n.
Arguments JString {number} s.
Arguments JArray {number} items.
Arguments JObject {number} members.

(** The entry [file] of the multipart form. *)
Record form_data := FormData {
  filepath : string;
  file_bytes : string;
  contentType : option string
}.

Inductive body (number : Type) :=
| Parsed (v : json number)
| Props (o : obj string)
| Multipart (form : form_data).
Arguments Parsed {number} v.
Arguments Props {number} o.
Arguments Multipart {number} form.

(** The value of an option with an optional argument, as [-d, --data [data]]:
    [undefined], [true] or the argument. *)
Inductive optarg := NotGiven | Bare | Given (s : string).

Inductive exn :=
| ENOENT (path : string)
| InvalidURL (input : string)
| NotAFunction (what : string).

(** The fields read from a WHATWG [URL]. *)
Record URL := {
  protocol : string;
  hostname : string;
  port : string;
  username : string;
  password : string
}.

Record proxy_options := ProxyOptions {
  host : string;
  proxy_port : string;
  auth : option (string * string)
}.

Inductive transport := Axios | AxiosHttpsProxyFix.

Module commander.
Record t := make {
  verbose : bool;
  output : option string;
  yaml : bool;
  header : obj string;
  data : optarg;
  datafile : option string;
  type : option string;
  proxy : option string;
  cookie : option string
}.
End commander.

Module options.
Record t (number : Type) := make {
  url : string;
  method : string;
  responseType : option string;
  headers : obj string;
  data : option (body number);
  proxy : option proxy_options
}.
Arguments make {number}.
Arguments url {number}.
Arguments method {number}.
Arguments responseType {number}.
Arguments headers {number}.
Arguments data {number}.
Arguments proxy {number}.
End options.

Inductive message (number : Type) :=
| Text (s : string)
| ProxyJson (p : proxy_options)
| OptionsJson (o : options.t number)
| Exception (e : exn)
| WriteError (err : string).
Arguments Text {number} s.
Arguments ProxyJson {number} p.
Arguments OptionsJson {number} o.
Arguments Exception {number} e.
Arguments WriteError {number} err.

(** One call of [console.log], or the start of a stream into a file. *)
Inductive event (number : Type) :=
| Log (lvl : level) (m : message number)
| RenderHeaders (h : obj string)
| RenderResponseHeaders (h : obj string) (set_cookie : option (list string))
| ShowBody (yaml : bool) (v : json number)
| Pipe (path : string).
Arguments Log {number} lvl m.
Arguments RenderHeaders {number} h.
Arguments RenderResponseHeaders {number} h set_cookie.
Arguments ShowBody {number} yaml v.
Arguments Pipe {number} path.

(** An event printed by [logerr]. *)
Definition is_error {number} (e : event number) : bool :=
  match e with
  | Log Error _ => true
  | _ => false
  end.

(** A computation that prints and may throw. *)
Inductive result (number A : Type) :=
| Ok (a : A) (log : list (event number))
| Throw (e : exn) (log : list (event number)).
Arguments Ok {number A} a log.
Arguments Throw {number A} e log.

Definition result_bind {number A B} (f : A → result number B)
    (m : result number A) : result number B :=
  match m with
  | Ok a log =>
      match f a with
      | Ok b log' => Ok b (log ++ log')
      | Throw e log' => Throw e (log ++ log')
      end
  | Throw e log => Throw e log
  end.

#[export] Instance result_mret {number} : MRet (result number) :=
  λ A a, Ok a [].
#[export] Instance result_mbind {number} : MBind (result number) :=
  λ A B, result_bind.

Definition tell {number} (log : list (event number)) : result number unit :=
  Ok () log.
Definition throw {number A} (e : exn) : result number A := Throw e [].

(** An optional string option is taken when it is truthy. *)
Definition given (o : option string) : option string :=
  match o with
  | Some s => if truthy s then Some s else None
  | None => None
  end.

Definition optarg_truthy (d : optarg) : bool :=
  match d with
  | NotGiven => false
  | Bare => true
  | Given s => truthy s
  end.

(** ** http-request-cli.js *)

Section RequestCli.

(** What the program takes from its libraries and from the runtime:
    JSON numbers and their falsiness, [JSON.parse] ([None] when it
    throws), [mime.contentType] ([None] when it answers [false]), the
    boundary that form-data draws for a form, and [new URL] ([None] when
    it throws). *)
Context {number : Type}.
Variable falsy_number : number → bool.
Variable JSON_parse : string → option (json number).
Variable mime_contentType : string → option string.
Variable boundary : string.
Variable URL_new : string → option URL.

Definition json_truthy (v : json number) : bool :=
  match v with
  | JNull => false
  | JBool b => b
  | JNumber n => negb (falsy_number n)
  | JString s => truthy s
  | JArray _ | JObject _ => true
  end.

(** Truthiness of [options.data]. *)
Definition body_truthy (b : option (body number)) : bool :=
  match b with
  | None => false
  | Some (Parsed v) => json_truthy v
  | Some (Props _) | Some (Multipart _) => true
  end.

Definition getContentTypes (type : string) : string :=
  match mime_contentType type with
  | Some ctype =>
      if truthy ctype then ctype else "application/x-www-form-urlencoded"
  | None => "application/x-www-form-urlencoded"
  end.

Definition logverbose (cmd : commander.t) (msg : message number)
    (data : option (obj string)) : list (event number) :=
  if commander.verbose cmd
  then Log Verbose msg ::
       match data with Some d => [RenderHeaders d] | None => [] end
  else [].

Definition logerr (msg : message number) : list (event number) :=
  [Log Error msg].
Definition logwarn (msg : message number) : list (event number) :=
  [Log Warning msg].
Definition logsuccess (msg : message number) : list (event number) :=
  [Log Success msg].

Definition readFileSync (fs : gmap string string) (path : string)
    : result number string :=
  match fs !! path with
  | Some content => mret content
  | None => throw (ENOENT path)
  end.

(** [form.getHeaders()]. *)
Definition form_headers : obj string :=
  [("content-type", "multipart/form-data; boundary=" +:+ boundary)].

(** The [try]/[catch] around [JSON.parse(commander.data)].  The bare flag
    is the value [true], which [JSON.parse] reads as the text [true] and
    which has no [replace] method. *)
Definition parse_data (d : optarg) : result number (body number) :=
  match d with
  | Given s =>
      match JSON_parse s with
      | Some v => mret (Parsed v)
      | None => mret (Props (props2json s))
      end
  | Bare =>
      match JSON_parse "true" with
      | Some v => mret (Parsed v)
      | None => throw (NotAFunction "props.replace")
      end
  | NotGiven => throw (NotAFunction "props.replace")
  end.

Definition newURL (input : string) : result number URL :=
  match URL_new input with
  | Some u => mret u
  | None => throw (InvalidURL input)
  end.

(** The blocks of [sendRequest], in the order of the source.  First the
    body (lines 141-167): the data file wins over the data string, and
    [options.headers] is the very object [commander.header]. *)
Definition attach_body (fs : gmap string string) (cmd : commander.t)
    (headers : obj string)
    : result number (obj string * option (body number)) :=
  match given (commander.datafile cmd) with
  | Some path =>
      bytes ← readFileSync fs path;
      mret (assignIn headers [form_headers],
            Some (Multipart (FormData path bytes (mime_contentType path))))
  | None =>
      if optarg_truthy (commander.data cmd) then
        parsed ← parse_data (commander.data cmd);
        mret (match given (commander.type cmd) with
              | Some type =>
                  obj_set "content-type" (getContentTypes type) headers
              | None => headers
              end,
              Some parsed)
      else mret (headers, None)
  end.

(** Lines 169-172. *)
Definition override_method (data : option (body number)) (method : string)
    : result number string :=
  if body_truthy data && String.eqb (toUpperCase method) "GET" then
    _ ← tell (logwarn (Text "Cannot send data with GET, POST will be used"));
    mret "POST"
  else mret method.

(** Lines 174-183. *)
Definition inject_cookie (fs : gmap string string) (cmd : commander.t)
    (headers : obj string) : obj string :=
  match given (commander.cookie cmd) with
  | Some path =>
      match fs !! path with
      | Some content => obj_set "cookie" (cookie_header content) headers
      | None => headers
      end
  | None => headers
  end.

(** Lines 185-210.  The target is parsed as it was typed, before the
    scheme was added. *)
Definition configure_proxy (cmd : commander.t) (url : string)
    : result number (transport * option proxy_options) :=
  match given (commander.proxy cmd) with
  | Some p =>
      proxyUrl ← newURL p;
      targetUrl ← newURL url;
      axios ←
        (if String.eqb (protocol proxyUrl) "http:"
            && String.eqb (protocol targetUrl) "https:" then
           _ ← tell (logverbose cmd
                 (Text "Due to a bug, use of an alternative Axios") None);
           mret AxiosHttpsProxyFix
         else mret Axios);
      let proxy :=
        ProxyOptions (hostname proxyUrl) (port proxyUrl)
          (if truthy (username proxyUrl)
           then Some (username proxyUrl, password proxyUrl) else None) in
      _ ← tell (logverbose cmd (ProxyJson proxy) None);
      mret (axios, Some proxy)
  | None => mret (Axios, None)
  end.

(** [sendRequest] up to and including the call [axios(options)]: the
    result is the transport chosen and the options it is called with. *)
Definition sendRequest (fs : gmap string string) (cmd : commander.t)
    (method url : string) : result number (transport * options.t number) :=
  _ ← tell (logverbose cmd
        (Text ("Sending " +:+ toUpperCase method +:+ " request to " +:+ url))
        None);
  let options_url :=
    if startsWith "http" url then url else "https://" +:+ url in
  let responseType :=
    match given (commander.output cmd) with
    | Some _ => Some "stream"
    | None => None
    end in
  '(headers, data) ← attach_body fs cmd (commander.header cmd);
  options_method ← override_method data method;
  let headers := inject_cookie fs cmd headers in
  '(axios, proxy) ← configure_proxy cmd url;
  let options :=
    options.make options_url options_method responseType headers data proxy in
  _ ← tell (logverbose cmd (OptionsJson options) None);
  mret (axios, options).

(** No block of [sendRequest] throws: the data file can be read, a bare
    [-d] parses, and the proxy and the target are URLs. *)
Definition reaches_axios (fs : gmap string string) (cmd : commander.t)
    (url : string) : bool :=
  match given (commander.datafile cmd) with
  | Some path => bool_decide (is_Some (fs !! path))
  | None =>
      match commander.data cmd with
      | Bare => bool_decide (is_Some (JSON_parse "true"))
      | _ => true
      end
  end
  && match given (commander.proxy cmd) with
     | Some p =>
         bool_decide (is_Some (URL_new p))
         && bool_decide (is_Some (URL_new url))
     | None => true
     end.

(** The request as the interceptor receives it from the transport: the
    method in lower case, and the header groups [headers.common] and
    [headers[m]] for each method [m] (the defaults of the transport), next
    to the headers of the options. *)
Record request := Request {
  request_method : string;
  common : obj string;
  by_method : gmap string (obj string);
  own_headers : obj string
}.

(** The header set that the interceptor of [initInterceptors] builds. *)
Definition merged_headers (cmd : commander.t) (req : request) : obj string :=
  let headers := keysToLower (common req) in
  assignIn headers
    [keysToLower (default [] (by_method req !! request_method req));
     keysToLower (commander.header cmd)].

(** The interceptor: it prints the header set and returns the request it
    was given.  It runs inside [axios(options)], so [commander.header] is
    here the object as [sendRequest] left it: [options.headers] is that
    same object. *)
Definition interceptor (cmd : commander.t) (req : request)
    : request * list (event number) :=
  let headers := merged_headers cmd req in
  (req, logverbose cmd (Text (newline +:+ "Request headers:")) (Some headers)).

(** The names of the headers that a request carries. *)
Definition header_names (req : request) : list string :=
  (common req).*1
  ++ (default [] (by_method req !! request_method req)).*1
  ++ (own_headers req).*1.

Record response := Response {
  response_headers : obj string;
  set_cookie : option (list string);
  response_data : option (json number)
}.

Definition showData (cmd : commander.t) (data : option (json number))
    : list (event number) :=
  match data with
  | Some v =>
      if json_truthy v then
        logverbose cmd (Text (newline +:+ "Body content:")) None
        ++ [ShowBody (commander.yaml cmd) v]
      else []
  | None => []
  end.

Definition showHeaders (cmd : commander.t) (resp : response)
    : list (event number) :=
  if commander.verbose cmd then
    [Log Verbose (Text (newline +:+ "Response headers:"));
     RenderResponseHeaders (response_headers resp) (set_cookie resp)]
  else [].

(** The outcome of an asynchronous write, as its callback learns it. *)
Definition write_outcome := option string.

(** The callback given to [then].  A write that fails is reported and
    leaves the file system as it was.  The bytes streamed into the output
    file are not tracked: [Pipe] records that the stream was started. *)
Definition onResponse (fs : gmap string string) (cmd : commander.t)
    (resp : response) (written saved : write_outcome)
    : gmap string string * list (event number) :=
  let shown :=
    match given (commander.output cmd) with
    | Some path =>
        Pipe path ::
        match written with
        | None => logsuccess (Text ("Response saved in " +:+ path))
        | Some err => logerr (WriteError err)
        end
    | None => showHeaders cmd resp ++ showData cmd (response_data resp)
    end in
  match given (commander.cookie cmd), set_cookie resp with
  | Some path, Some cookies =>
      match saved with
      | None => (<[path := cookie_file_text cookies]> fs, shown)
      | Some err => (fs, shown ++ logerr (WriteError err))
      end
  | _, _ => (fs, shown)
  end.

End RequestCli.

(** ** http-cli.js, the earlier variant *)

Module Legacy.
Section Legacy.

(** Besides [JSON.parse], this variant takes from the runtime what a
    plain object inherits from [Object.prototype]: [inherited name] is the
    member found under [name] ([constructor], [toString], ...), as the
    text that stands for it where a header value is expected, and [None]
    when there is no such member. *)
Context {number : Type}.
Variable JSON_parse : string → option (json number).
Variable inherited : string → option string.

Definition contentTypes : obj string :=
  [("json", "application/json"); ("text", "text/plain")].

(** [contentTypes[type]] finds the own entries of the table and, failing
    them, the inherited members; such a member is a function or an
    object, hence truthy whatever its text, and is returned as it is. *)
Definition getContentTypes (type : string) : string :=
  match obj_get type contentTypes with
  | Some ctype =>
      if truthy ctype then ctype else "application/x-www-form-urlencoded"
  | None =>
      match inherited type with
      | Some member => member
      | None => "application/x-www-form-urlencoded"
      end
  end.

(** [sendRequest] up to the call [axios(options)].  This variant neither
    completes the URL nor changes the method, and names the headers it
    sets with capitals. *)
Definition sendRequest (fs : gmap string string) (cmd : commander.t)
    (method url : string) : result number (options.t number) :=
  _ ← tell (logverbose cmd (Text ("Sending GET request to " +:+ url)) None);
  let responseType :=
    match given (commander.output cmd) with
    | Some _ => Some "stream"
    | None => None
    end in
  let headers := commander.header cmd in
  '(headers, data) ←
    (if optarg_truthy (commander.data cmd) then
       parsed ← parse_data JSON_parse (commander.data cmd);
       mret (match given (commander.type cmd) with
             | Some type => obj_set "Content-Type" (getContentTypes type) headers
             | None => headers
             end,
             Some parsed)
     else mret (headers, None));
  let headers :=
    match given (commander.cookie cmd) with
    | Some path =>
        match fs !! path with
        | Some content => obj_set "Cookie" (cookie_header content) headers
        | None => headers
        end
    | None => headers
    end in
  mret (options.make url method responseType headers data None).

(** The interceptor of this variant assigns the other two layers into
    [request.headers.common] itself, with the names as they are. *)
Definition interceptor (cmd : commander.t) (req : request)
    : request * list (event number) :=
  let headers :=
    assignIn (common req)
      [default [] (by_method req !! request_method req);
       commander.header cmd] in
  (Request (request_method req) headers (by_method req) (own_headers req),
   logverbose cmd (Text (newline +:+ "Request headers:")) (Some headers)).

End Legacy.
End Legacy.

(** ** A concrete runtime for the examples *)

Module Demo.

(** A reader of the scalar JSON texts [null], [true], [false], [0] and
    [1]; every other text is refused.  It agrees with [JSON.parse] on all
    the texts it is given below. *)
Definition JSON_parse (s : string) : option (json Z) :=
  if String.eqb s "null" then Some JNull
  else if String.eqb s "true" then Some (JBool true)
  else if String.eqb s "false" then Some (JBool false)
  else if String.eqb s "0" then Some (JNumber 0)
  else if String.eqb s "1" then Some (JNumber 1)
  else None.

Definition falsy_number (n : Z) : bool := n =? 0.

Definition mime_contentType (s : string) : option string :=
  if String.eqb s "json" then Some "application/json; charset=utf-8"
  else None.

Definition boundary : string := "--------------------------0".

(** Some members that a plain object inherits, in the text form of the
    runtime; no other name is asked for below. *)
Definition inherited (name : string) : option string :=
  if String.eqb name "constructor"
  then Some "function Object() { [native code] }"
  else if String.eqb name "toString"
  then Some "function toString() { [native code] }"
  else None.

(** No proxy is used in the examples. *)
Definition URL_new (s : string) : option URL := None.

Definition sendRequest :=
  sendRequest falsy_number JSON_parse mime_contentType boundary URL_new.

(** The command line without any option. *)
Definition bare : commander.t :=
  commander.make false None false [] NotGiven None None None None.

Definition with_data (d : string) : commander.t :=
  commander.make false None false [] (Given d) None None None None.

Definition with_cookie (headers : obj string) (path : string) : commander.t :=
  commander.make false None false headers NotGiven None None None (Some path).

Definition with_headers (headers : obj string) : commander.t :=
  commander.make true None false headers NotGiven None None None None.

(** A request as the transport hands it to the interceptor, with its
    usual default groups. *)
Definition get_request (headers : obj string) : request :=
  Request "get"
    [("Accept", "application/json, text/plain, */*")]
    {[ "get" := [];
       "post" := [("Content-Type", "application/x-www-form-urlencoded")] ]}
    headers.

(** Two continuation lines: [a=1\], [b\] and [c]. *)
Definition two_continuations : string :=
  "a=1" +:+ backslash_newline +:+ "b" +:+ backslash_newline +:+ "c".

(** A cookie file whose second line has no pair before its attribute. *)
Definition attribute_only_jar : string :=
  "sid=1; Path=/" +:+ newline +:+ ";Secure".

(** [-H Accept=1 -H accept=2 -H Accept=3]: the third occurrence
    overwrites the first in its place, before the second. *)
Definition recased_headers : obj string :=
  parse_headers ["Accept=1"; "accept=2"; "Accept=3"].


End Demo.

(** ** The specification's own words *)

Module Spec.

(** "split each line on the first [=]": the text before the first [c] and
    the text after it. *)
Fixpoint split_first (c : ascii) (s : string) : option (string * string) :=
  match s with
  | "" => None
  | String a s' =>
      if Ascii.eqb a c then Some ("", s')
      else (λ kv, (String a kv.1, kv.2)) <$> split_first c s'
  end.

(** "trim both sides ...; a line with no [=] maps to" the empty string
    under the key that "is the whole trimmed line". *)
Definition entry (line : string) : string * string :=
  match split_first "=" line with
  | Some (key, value) => (trim key, trim value)
  | None => (trim line, "")
  end.

(** "producing a flat string-keyed mapping". *)
Definition properties (lines : list string) : obj string :=
  fold_left (λ o line, obj_define (entry line).1 (entry line).2 o) lines [].

(** "every literal backslash-newline sequence in the input string is
    collapsed to a single space". *)
Fixpoint collapse (s : string) : string :=
  match s with
  | "" => ""
  | String a s' =>
      match s' with
      | String b s'' =>
          if Ascii.eqb a backslash && Ascii.eqb b LF
          then String " " (collapse s'')
          else String a (collapse s')
      | "" => s
      end
  end.

(** The number of backslash-newline sequences of a text. *)
Fixpoint continuations (s : string) : nat :=
  match s with
  | "" => 0%nat
  | String a s' =>
      match s' with
      | String b s'' =>
          if Ascii.eqb a backslash && Ascii.eqb b LF
          then S (continuations s'')
          else continuations s'
      | "" => 0%nat
      end
  end.

(** The properties-style parse: continuation lines joined, then split on
    newlines. *)
Definition properties_parse (s : string) : obj string :=
  properties (split LF (collapse s)).

(** The bodies that count for nothing in a test of the body: none at
    all, and the JSON values null, false, zero and the empty string. *)
Definition absent {number} (falsy_number : number → bool)
    (b : option (body number)) : bool :=
  match b with
  | None => true
  | Some (Parsed JNull) => true
  | Some (Parsed (JBool false)) => true
  | Some (Parsed (JNumber n)) => falsy_number n
  | Some (Parsed (JString "")) => true
  | Some _ => false
  end.

(** "begins with a recognized scheme". *)
Definition has_scheme (url : string) : bool :=
  startsWith "http://" url || startsWith "https://" url.

(** "strips everything from the first [;] onward". *)
Definition strip_attributes (line : string) : string :=
  match split_first ";" line with
  | Some (kept, _) => kept
  | None => line
  end.

(** "for each line strips everything from the first [;] onward, then joins
    all resulting lines with [; ]". *)
Definition cookie_value (content : string) : string :=
  join "; " (strip_attributes <$> split LF content).

End Spec.


(** ** The rest of the two files *)

(** The key and the value that the callback of [props2json] computes for
    a line, before it assigns them. *)
Definition props_pair (line : string) : string * string :=
  let eqIdx := indexOf "=" line in
  let eqIdx := if 0 <? eqIdx then Z.to_nat eqIdx else String.length line in
  (trim (substring 0 eqIdx line), trim (substring_from (eqIdx + 1) line)).

(** An event that puts the headers or the body of the response on the
    terminal. *)
Definition shows_response {number} (e : event number) : bool :=
  match e with
  | RenderResponseHeaders _ _ | ShowBody _ _ => true
  | _ => false
  end.

Section Commands.

Context {number : Type}.
Variable falsy_number : number → bool.
Variable JSON_parse : string → option (json number).
Variable mime_contentType : string → option string.
Variable boundary : string.
Variable URL_new : string → option URL.

(** [configureMethodCommand(method)]: the name under which the subcommand
    is registered, and its action on the URL. *)
Definition configureMethodCommand (fs : gmap string string)
    (cmd : commander.t) (method : string)
    : string * (string → result number (transport * options.t number)) :=
  (toLowerCase method,
   λ url, sendRequest falsy_number JSON_parse mime_contentType boundary
            URL_new fs cmd (toUpperCase method) url).

(** The six calls of [configureMethodCommand], in their order. *)
Definition subcommands (fs : gmap string string) (cmd : commander.t)
    : obj (string → result number (transport * options.t number)) :=
  configureMethodCommand fs cmd
    <$> ["get"; "post"; "put"; "delete"; "patch"; "head"].

(** What [commander.parse] does with a subcommand name and its URL: the
    action registered under that name runs, and for any other name the
    listener of [command:*] prints the arguments to the error stream and
    exits with status 1. *)
Inductive run_result :=
| Ran (r : result number (transport * options.t number))
| InvalidCommand (args : string) (status : Z).

Definition run (fs : gmap string string) (cmd : commander.t)
    (name url : string) : run_result :=
  match obj_get name (subcommands fs cmd) with
  | Some action => Ran (action url)
  | None => InvalidCommand (join " " [name; url]) 1
  end.

End Commands.

(** A runtime with a proxy: a reader of the three URLs used below, which
    refuses every other text, as [new URL] refuses a text without a
    scheme. *)
Module Proxied.

Definition URL_new (s : string) : option URL :=
  if String.eqb s "http://user:pw@proxy.local:8080"
  then Some (Build_URL "http:" "proxy.local" "8080" "user" "pw")
  else if String.eqb s "https://example.com/x"
  then Some (Build_URL "https:" "example.com" "" "" "")
  else if String.eqb s "http://example.com/x"
  then Some (Build_URL "http:" "example.com" "" "" "")
  else None.

Definition sendRequest :=
  sendRequest Demo.falsy_number Demo.JSON_parse Demo.mime_contentType
    Demo.boundary URL_new.

Definition with_proxy (p : string) : commander.t :=
  commander.make false None false [] NotGiven None None (Some p) None.

End Proxied.

(** * Properties *)

(** ** Strings *)

Lemma find_char_cons c a s :
  find_char c (String a s)
  = if Ascii.eqb a c then Some O else S <$> find_char c s.
Proof. reflexivity. Qed.

Lemma take_length s : take (String.length s) s = s.
Proof. induction s as [|a s IH]; simpl; [done | by rewrite IH]. Qed.

Lemma drop_beyond s n : (String.length s ≤ n)%nat → drop n s = "".
Proof.
  revert n. induction s as [|a s IH]; intros [|n] Hn; simpl in *; try done.
  - lia.
  - apply IH. lia.
Qed.

Lemma take_app_length a r : take (String.length a) (a +:+ r) = a.
Proof. induction a as [|x a IH]; simpl; [by destruct r | by rewrite IH]. Qed.

Lemma drop_app_length a r : drop (String.length a) (a +:+ r) = r.
Proof. induction a as [|x a IH]; simpl; [by destruct r | done]. Qed.

Lemma substring_prefix n s : substring 0 n s = take n s.
Proof.
  unfold substring. rewrite Nat.max_0_l, Nat.min_0_l, Nat.sub_0_r.
  by destruct s.
Qed.

Lemma find_char_length c s i : find_char c s = Some i → (i < String.length s)%nat.
Proof.
  revert i. induction s as [|a s IH]; intros i; simpl; [done|].
  destruct (Ascii.eqb a c); [intros [= <-]; lia|].
  destruct (find_char c s) as [j|]; [|done].
  intros [= <-]. specialize (IH j eq_refl). lia.
Qed.

Lemma find_char_app_absent c a r :
  find_char c a = None → find_char c (a +:+ String c r) = Some (String.length a).
Proof.
  induction a as [|x a IH]; simpl.
  - by rewrite Ascii.eqb_refl.
  - destruct (Ascii.eqb x c); [done|].
    destruct (find_char c a); [done|]. intros _. by rewrite IH.
Qed.

Lemma find_char_first c s : find_char c s = Some O ↔ startsWith (char c) s = true.
Proof.
  destruct s as [|a s]; simpl; [done|].
  rewrite (Ascii.eqb_sym c a). destruct (Ascii.eqb a c); simpl.
  - done.
  - destruct (find_char c s); simpl; split; intros; simplify_eq.
Qed.

(** The scan of the specification agrees with [indexOf] and [substring]. *)
Lemma split_first_None c s : find_char c s = None → Spec.split_first c s = None.
Proof.
  induction s as [|a s IH]; simpl; [done|].
  destruct (Ascii.eqb a c); [done|].
  destruct (find_char c s); [done|]. intros _. by rewrite IH.
Qed.

Lemma split_first_Some c s i :
  find_char c s = Some i → Spec.split_first c s = Some (take i s, drop (S i) s).
Proof.
  revert i. induction s as [|a s IH]; intros i; simpl; [done|].
  destruct (Ascii.eqb a c).
  - intros [= <-]. by destruct s.
  - destruct (find_char c s) as [j|]; [|done].
    intros [= <-]. by rewrite (IH j eq_refl).
Qed.

Lemma split_absent c s : find_char c s = None → split c s = [s].
Proof.
  induction s as [|a s IH]; simpl; [done|].
  destruct (Ascii.eqb a c); [done|].
  destruct (find_char c s); [done|]. intros _. by rewrite IH.
Qed.

Lemma split_app c a r :
  find_char c a = None → split c (a +:+ String c r) = a :: split c r.
Proof.
  induction a as [|x a IH]; simpl.
  - by rewrite Ascii.eqb_refl.
  - destruct (Ascii.eqb x c); [done|].
    destruct (find_char c a); [done|]. intros _. by rewrite IH.
Qed.

Lemma split_nonempty c s : split c s ≠ [].
Proof.
  destruct s as [|a s]; simpl; [done|].
  destruct (Ascii.eqb a c); [done|]. by destruct (split c s).
Qed.

Lemma startsWith_app p q s :
  startsWith (p +:+ q) s = true → startsWith p s = true.
Proof.
  revert s. induction p as [|a p IH]; intros s; [done|].
  change (String a p +:+ q) with (String a (p +:+ q)).
  destruct s as [|b s]; simpl; [done|].
  intros [-> ?]%andb_true_iff. by apply IH.
Qed.

Lemma lower_unit_idemp a : lower_unit (lower_unit a) = lower_unit a.
Proof. by destruct a as [[] [] [] [] [] [] [] []]. Qed.

Lemma toLowerCase_idemp s : toLowerCase (toLowerCase s) = toLowerCase s.
Proof.
  induction s as [|a s IH]; [done|].
  unfold toLowerCase in *. simpl. by rewrite lower_unit_idemp, IH.
Qed.

(** ** Objects *)

Section Objects.

Context {V : Type}.
Implicit Types (o : obj V) (k : string) (v : V).

Lemma obj_get_define_eq k v o : obj_get k (obj_define k v o) = Some v.
Proof.
  induction o as [|[k' v'] o IH]; simpl.
  - by rewrite String.eqb_refl.
  - destruct (String.eqb k' k) eqn:Hk; simpl; by rewrite Hk.
Qed.

Lemma obj_get_define_ne k k' v o :
  k ≠ k' → obj_get k' (obj_define k v o) = obj_get k' o.
Proof.
  intros Hne. induction o as [|[k0 v0] o IH]; simpl.
  - by apply String.eqb_neq in Hne as ->.
  - destruct (String.eqb k0 k) eqn:Hk; simpl; [|by rewrite IH].
    apply String.eqb_eq in Hk as ->. by apply String.eqb_neq in Hne as ->.
Qed.

Lemma obj_get_define k k' v o :
  obj_get k' (obj_define k v o)
  = if decide (k = k') then Some v else obj_get k' o.
Proof.
  case_decide as Hk;
    [subst; apply obj_get_define_eq | by apply obj_get_define_ne].
Qed.

(** An assignment stores nothing, or does what a definition does; under
    any name but [__proto__] it is the definition. *)
Lemma obj_set_cases k v o : obj_set k v o = o ∨ obj_set k v o = obj_define k v o.
Proof.
  unfold obj_set. destruct (String.eqb k "__proto__"); [|auto].
  destruct (obj_get k o); auto.
Qed.

Lemma obj_set_plain k v o : k ≠ "__proto__" → obj_set k v o = obj_define k v o.
Proof. intros Hk. unfold obj_set. by apply String.eqb_neq in Hk as ->. Qed.

Lemma obj_get_set_eq k v o :
  k ≠ "__proto__" → obj_get k (obj_set k v o) = Some v.
Proof. intros Hk. rewrite obj_set_plain by done. apply obj_get_define_eq. Qed.

Lemma obj_get_set_ne k k' v o :
  k ≠ k' → obj_get k' (obj_set k v o) = obj_get k' o.
Proof.
  intros Hne. destruct (obj_set_cases k v o) as [-> | ->]; [done|].
  by apply obj_get_define_ne.
Qed.

Lemma obj_get_set k k' v o :
  k' ≠ "__proto__" →
  obj_get k' (obj_set k v o) = if decide (k = k') then Some v else obj_get k' o.
Proof.
  intros Hk'. case_decide as Hk; [|by apply obj_get_set_ne].
  subst. by apply obj_get_set_eq.
Qed.

(** No assignment gives an object the own property [__proto__]. *)
Lemma obj_get_set_proto k v o :
  obj_get "__proto__" o = None → obj_get "__proto__" (obj_set k v o) = None.
Proof.
  intros Ho. unfold obj_set. destruct (String.eqb k "__proto__") eqn:Hk.
  - apply String.eqb_eq in Hk as ->. by rewrite Ho.
  - apply String.eqb_neq in Hk. by rewrite obj_get_define_ne.
Qed.

Lemma obj_get_elem_of k o : k ∈ o.*1 ↔ is_Some (obj_get k o).
Proof.
  induction o as [|[k' v'] o IH]; simpl.
  - split; [by intros ?%elem_of_nil | by intros [? ?]].
  - rewrite elem_of_cons, IH. destruct (String.eqb k' k) eqn:Hk.
    + apply String.eqb_eq in Hk as ->. split; eauto.
    + apply String.eqb_neq in Hk. split; [intros [->|?]; done | eauto].
Qed.

(** Assigning the entries of [source] one after the other: the last entry
    of a name decides. *)
Lemma obj_get_assign k (target source : obj V) :
  obj_get k (assign target source)
  = match snd <$> last (filter (λ e, e.1 = k) source) with
    | Some v => Some v
    | None => obj_get k target
    end.
Proof.
  unfold assign. induction source as [|[k' v'] source IH] using rev_ind.
  - done.
  - rewrite fold_left_app, filter_app. simpl.
    rewrite obj_get_define. rewrite filter_cons, filter_nil. simpl.
    case_decide as Hk.
    + by rewrite last_snoc.
    + by rewrite app_nil_r.
Qed.

(** [keysToLower]: the last entry whose name has the lower-case form [k]
    decides the value of [k], unless [k] is [__proto__], which the result
    never holds. *)
Lemma obj_get_keysToLower_from k (o acc : obj V) :
  k ≠ "__proto__" →
  obj_get k (fold_left (λ result e, obj_set (toLowerCase e.1) e.2 result) o acc)
  = match last_named k o with
    | Some v => Some v
    | None => obj_get k acc
    end.
Proof.
  intros Hproto. unfold last_named.
  induction o as [|[k' v'] o IH] using rev_ind.
  - done.
  - rewrite fold_left_app, filter_app. simpl.
    rewrite obj_get_set by done. rewrite filter_cons, filter_nil. simpl.
    case_decide as Hk.
    + by rewrite last_snoc.
    + by rewrite app_nil_r.
Qed.

Lemma keysToLower_from_proto (o acc : obj V) :
  obj_get "__proto__" acc = None →
  obj_get "__proto__"
    (fold_left (λ result e, obj_set (toLowerCase e.1) e.2 result) o acc)
  = None.
Proof.
  revert acc. induction o as [|e o IH]; intros acc Hacc; [done|].
  cbn [fold_left]. apply IH. by apply obj_get_set_proto.
Qed.

Lemma obj_get_keysToLower k o :
  obj_get k (keysToLower o)
  = if decide (k = "__proto__") then None else last_named k o.
Proof.
  unfold keysToLower. case_decide as Hk.
  - subst. by apply keysToLower_from_proto.
  - rewrite obj_get_keysToLower_from by done. by destruct (last_named k o).
Qed.

Lemma last_named_lower k o v : last_named k o = Some v → toLowerCase k = k.
Proof.
  unfold last_named. intros Hlast.
  destruct (last (filter (λ e, toLowerCase e.1 = k) o)) as [e|] eqn:He; [|done].
  apply last_Some_elem_of, list_elem_of_filter in He as [<- _].
  apply toLowerCase_idemp.
Qed.

(** Assignment keeps the names of an object distinct. *)
Lemma obj_define_names k v o x : x ∈ (obj_define k v o).*1 → x = k ∨ x ∈ o.*1.
Proof.
  induction o as [|[k1 v1] o IH]; simpl.
  - intros ?%list_elem_of_singleton. auto.
  - destruct (String.eqb k1 k); simpl; rewrite !elem_of_cons.
    + auto.
    + intros [->|[->|?]%IH]; auto.
Qed.

Lemma obj_define_NoDup k v o : NoDup o.*1 → NoDup (obj_define k v o).*1.
Proof.
  induction o as [|[k1 v1] o IH]; simpl.
  - intros _. apply NoDup_singleton.
  - rewrite NoDup_cons. intros [Hk1 Hnd].
    destruct (String.eqb k1 k) eqn:Hk; simpl; rewrite NoDup_cons.
    + done.
    + split; [|auto]. intros [->|?]%obj_define_names; [|done].
      by rewrite String.eqb_refl in Hk.
Qed.

Lemma obj_set_names k v o x : x ∈ (obj_set k v o).*1 → x = k ∨ x ∈ o.*1.
Proof.
  destruct (obj_set_cases k v o) as [-> | ->]; [auto | apply obj_define_names].
Qed.

Lemma obj_set_NoDup k v o : NoDup o.*1 → NoDup (obj_set k v o).*1.
Proof.
  destruct (obj_set_cases k v o) as [-> | ->]; [auto | apply obj_define_NoDup].
Qed.

Lemma keysToLower_NoDup o : NoDup (keysToLower o).*1.
Proof.
  unfold keysToLower.
  assert (Hacc : NoDup ([] : obj V).*1) by apply NoDup_nil_2.
  revert Hacc. generalize ([] : obj V).
  induction o as [|e o IH]; intros acc Hacc; simpl; [done|].
  apply IH. by apply obj_set_NoDup.
Qed.

(** When every name occurs once, the last entry of a name is its entry. *)
Lemma last_exact_NoDup k o :
  NoDup o.*1 → snd <$> last (filter (λ e, e.1 = k) o) = obj_get k o.
Proof.
  induction o as [|[k' v'] o IH]; [done|].
  rewrite fmap_cons, NoDup_cons, filter_cons. intros [Hk' Hnd].
  cbn [obj_get fst]. destruct (String.eqb k' k) eqn:Hk.
  - apply String.eqb_eq in Hk as ->. rewrite decide_True by done.
    destruct (filter (λ e : string * V, e.1 = k) o) as [|[k1 v1] l] eqn:Hf;
      [done|].
    assert (Hin : (k1, v1) ∈ filter (λ e : string * V, e.1 = k) o)
      by (rewrite Hf; apply elem_of_cons; auto).
    apply list_elem_of_filter in Hin as [Hk1 Hin]. simpl in Hk1. subst k1.
    destruct Hk'. apply (list_elem_of_fmap_2 fst _ _ Hin).
  - apply String.eqb_neq in Hk. rewrite decide_False by done. by apply IH.
Qed.

End Objects.

(** ** The properties-style parse *)

Lemma props_line_entry o line :
  startsWith "=" line = false →
  props_line o line = obj_set (Spec.entry line).1 (Spec.entry line).2 o.
Proof.
  intros Hfirst. unfold props_line, indexOf, Spec.entry.
  destruct (find_char "=" line) as [i|] eqn:Hfind.
  - rewrite (split_first_Some _ _ _ Hfind). destruct i as [|i].
    + apply find_char_first in Hfind. unfold char in Hfind. congruence.
    + replace (0 <? Z.of_nat (S i)) with true by (symmetry; apply Z.ltb_lt; lia).
      rewrite Nat2Z.id, substring_prefix. unfold substring_from.
      by rewrite Nat.add_1_r.
  - rewrite (split_first_None _ _ Hfind).
    change (0 <? -1) with false. cbv iota.
    rewrite substring_prefix, take_length. unfold substring_from.
    rewrite drop_beyond by lia. done.
Qed.

Lemma fold_props_line lines o :
  Forall (λ line, startsWith "=" line = false) lines →
  fold_left props_line lines o
  = fold_left (λ o line, obj_set (Spec.entry line).1 (Spec.entry line).2 o)
      lines o.
Proof.
  intros Hlines. revert o.
  induction Hlines as [|line lines Hline _ IH]; intros o; simpl; [done|].
  by rewrite props_line_entry, IH.
Qed.

Lemma fold_set_define lines o :
  Forall (λ line, (Spec.entry line).1 ≠ "__proto__") lines →
  fold_left (λ o line, obj_set (Spec.entry line).1 (Spec.entry line).2 o)
    lines o
  = fold_left (λ o line, obj_define (Spec.entry line).1 (Spec.entry line).2 o)
      lines o.
Proof.
  intros Hlines. revert o.
  induction Hlines as [|line lines Hline _ IH]; intros o; simpl; [done|].
  by rewrite obj_set_plain, IH.
Qed.

Lemma collapse_cons a b s :
  Spec.collapse (String a (String b s))
  = if Ascii.eqb a backslash && Ascii.eqb b LF
    then String " " (Spec.collapse s)
    else String a (Spec.collapse (String b s)).
Proof. reflexivity. Qed.

Lemma continuations_cons a b s :
  Spec.continuations (String a (String b s))
  = if Ascii.eqb a backslash && Ascii.eqb b LF
    then S (Spec.continuations s)
    else Spec.continuations (String b s).
Proof. reflexivity. Qed.

Lemma replace_continuation_cons a s :
  replace backslash_newline " " (String a s)
  = if Ascii.eqb backslash a && startsWith newline s
    then String " " (drop 1 s)
    else String a (replace backslash_newline " " s).
Proof. reflexivity. Qed.

Lemma collapse_no_continuation s :
  Spec.continuations s = 0%nat → Spec.collapse s = s.
Proof.
  induction s as [|a s IH]; [done|]. destruct s as [|b s]; [done|].
  rewrite continuations_cons, collapse_cons.
  destruct (Ascii.eqb a backslash && Ascii.eqb b LF); [done|].
  intros Hs. by rewrite IH.
Qed.

(** With at most one continuation, replacing the first is collapsing
    them all. *)
Lemma collapse_one_continuation s :
  (Spec.continuations s ≤ 1)%nat →
  Spec.collapse s = replace backslash_newline " " s.
Proof.
  induction s as [|a s IH]; [done|]. destruct s as [|b s].
  - intros _. rewrite replace_continuation_cons.
    change (startsWith newline "") with false. by rewrite andb_false_r.
  - rewrite continuations_cons, collapse_cons, replace_continuation_cons.
    change (startsWith newline (String b s)) with (Ascii.eqb LF b && true).
    rewrite andb_true_r, (Ascii.eqb_sym backslash a), (Ascii.eqb_sym LF b).
    destruct (Ascii.eqb a backslash && Ascii.eqb b LF).
    + intros Hs. rewrite collapse_no_continuation by lia. done.
    + intros Hs. by rewrite IH.
Qed.

(** On a text with at most one continuation, without a line that starts
    with [=] and without the key [__proto__], [props2json] is the parse
    that the specification describes. *)
Lemma props2json_properties props :
  (Spec.continuations props ≤ 1)%nat →
  Forall (λ line, startsWith "=" line = false)
    (split LF (Spec.collapse props)) →
  Forall (λ line, (Spec.entry line).1 ≠ "__proto__")
    (split LF (Spec.collapse props)) →
  props2json props = Spec.properties_parse props.
Proof.
  intros Hone%collapse_one_continuation Hfirst Hproto.
  unfold props2json, Spec.properties_parse.
  rewrite <- Hone. rewrite fold_props_line by done.
  by apply fold_set_define.
Qed.

(** C8: [props2json] is meant to join every continuation line, but its
    [replace] has no [g] flag: on an input with two backslash-newline
    sequences only the first is collapsed, the second stays in the value
    and still ends a line. *)
Theorem props2json_collapses_first_continuation_only :
  props2json Demo.two_continuations = [("a", "1 b\"); ("c", "")]
  ∧ Spec.properties_parse Demo.two_continuations = [("a", "1 b c")]
  ∧ props2json Demo.two_continuations
    ≠ Spec.properties_parse Demo.two_continuations.
Proof. by vm_compute. Qed.

(** ** Header arguments *)

Lemma addHeader_name name headers :
  find_char "=" name = None → addHeader name headers = obj_set name "" headers.
Proof. intros Hname. unfold addHeader. by rewrite split_absent. Qed.

Lemma addHeader_pair name value headers :
  find_char "=" name = None → find_char "=" value = None →
  addHeader (name +:+ String "=" value) headers = obj_set name value headers.
Proof.
  intros Hname Hvalue. unfold addHeader.
  by rewrite split_app, split_absent.
Qed.

Lemma parse_headers_snoc args header :
  parse_headers (args ++ [header]) = addHeader header (parse_headers args).
Proof. unfold parse_headers. by rewrite fold_left_app. Qed.

(** X19: the occurrences of [-H] accumulate, and the latest occurrence of
    a name other than [__proto__] decides its value, the other names
    keeping theirs. *)
Lemma parse_headers_last args name value :
  find_char "=" name = None → find_char "=" value = None →
  name ≠ "__proto__" →
  obj_get name (parse_headers (args ++ [name +:+ String "=" value]))
  = Some value
  ∧ ∀ other, other ≠ name →
      obj_get other (parse_headers (args ++ [name +:+ String "=" value]))
      = obj_get other (parse_headers args).
Proof.
  intros Hname Hvalue Hproto.
  rewrite parse_headers_snoc, addHeader_pair by done.
  split; [by apply obj_get_set_eq|]. intros other Hother.
  by apply obj_get_set_ne.
Qed.

(** C10: a header argument [name=v=rest] is split at every [=] and only
    the first two pieces are used: the entry is [{name: v}], and [rest]
    with the second [=] is dropped. *)
Theorem addHeader_drops_after_second_equals name v rest headers :
  find_char "=" name = None → find_char "=" v = None →
  addHeader (name +:+ String "=" (v +:+ String "=" rest)) headers
  = obj_set name v headers.
Proof.
  intros Hname Hv. unfold addHeader.
  rewrite split_app by done. rewrite split_app by done.
  pose proof (split_nonempty "=" rest). by destruct (split "=" rest).
Qed.

Lemma addHeader_drops_after_second_equals_example :
  find_char "=" "a" = None ∧ find_char "=" "b" = None
  ∧ addHeader "a=b=c" [] = [("a", "b")].
Proof.
  split; [reflexivity|]. split; [reflexivity|].
  apply (addHeader_drops_after_second_equals "a" "b" "c" []); reflexivity.
Defined.

(** C3: the value of a header argument [name=value] is meant to be kept
    whole, but a value that contains [=] is cut at it: the padding of a
    Base64 credential is lost. *)
Theorem addHeader_cuts_value_at_equals :
  addHeader "Authorization=Basic dXNlcjpwdw==" []
  = [("Authorization", "Basic dXNlcjpwdw")]
  ∧ addHeader "Authorization=Basic dXNlcjpwdw==" []
    ≠ [("Authorization", "Basic dXNlcjpwdw==")].
Proof. by vm_compute. Qed.


(** ** The header set of the interceptor *)

Section Interceptor.

Context {number : Type}.

Lemma obj_get_merged_headers cmd req k :
  obj_get k (merged_headers cmd req)
  = if decide (k = "__proto__") then None
    else match last_named k (commander.header cmd) with
         | Some v => Some v
         | None =>
             match last_named k
                     (default [] (by_method req !! request_method req)) with
             | Some v => Some v
             | None => last_named k (common req)
             end
         end.
Proof.
  unfold merged_headers, assignIn. simpl.
  rewrite !obj_get_assign, !last_exact_NoDup by apply keysToLower_NoDup.
  rewrite !obj_get_keysToLower. by case_decide.
Qed.

(** C9, amended: the interceptor hands the request on as it received it;
    the header set it builds is only printed (in verbose mode).  In that
    set every name is in lower case, and the value of a name is taken from
    the headers of the command line (the [-H] headers, with what
    [sendRequest] has added to that object by then), else from the
    defaults of the method, else from the common defaults, names being
    compared in lower case; within one layer the entry that stands last
    in the object decides.  The name [__proto__] is never in the set: a
    header whose name has that lower-case form is lost. *)
Theorem interceptor_prints_layered_lowercase_headers cmd req :
  (interceptor (number:=number) cmd req).1 = req
  ∧ (interceptor (number:=number) cmd req).2
    = (if commander.verbose cmd
       then [Log Verbose (Text (newline +:+ "Request headers:"));
             RenderHeaders (merged_headers cmd req)]
       else [])
  ∧ Forall (λ k, toLowerCase k = k) (merged_headers cmd req).*1
  ∧ ∀ k, obj_get k (merged_headers cmd req)
         = if decide (k = "__proto__") then None
           else match last_named k (commander.header cmd) with
                | Some v => Some v
                | None =>
                    match last_named k
                            (default []
                               (by_method req !! request_method req)) with
                    | Some v => Some v
                    | None => last_named k (common req)
                    end
                end.
Proof.
  split; [done|]. split; [done|]. split; [|apply obj_get_merged_headers].
  apply Forall_forall. intros k [v Hk]%obj_get_elem_of.
  rewrite obj_get_merged_headers in Hk. case_decide; [done|].
  destruct (last_named k (commander.header cmd)) eqn:H1;
    [by eapply last_named_lower|].
  destruct (last_named k (default [] (by_method req !! request_method req)))
    eqn:H2; [by eapply last_named_lower|].
  by eapply last_named_lower.
Qed.

End Interceptor.

(** C9 as stated fails: with [-H accept=text/html] the request that leaves
    the interceptor still carries the default [Accept] under its
    capitalised name, next to the [accept] of the command line.  And in
    the printed set the header set last need not win: after
    [-H Accept=1 -H accept=2 -H Accept=3] the value of [accept] is [2]. *)
Lemma interceptor_request_keeps_names :
  header_names
    (interceptor (number:=Z) (Demo.with_headers [("accept", "text/html")])
       (Demo.get_request [("accept", "text/html")])).1
  = ["Accept"; "accept"]
  ∧ ¬ Forall (λ k, toLowerCase k = k)
        (header_names
           (interceptor (number:=Z) (Demo.with_headers [("accept", "text/html")])
              (Demo.get_request [("accept", "text/html")])).1)
  ∧ Demo.recased_headers = [("Accept", "3"); ("accept", "2")]
  ∧ merged_headers (Demo.with_headers Demo.recased_headers)
      (Demo.get_request Demo.recased_headers)
    = [("accept", "2")].
Proof.
  split; [by vm_compute|]. split; [|by vm_compute].
  intros [H _]%Forall_cons. vm_compute in H. discriminate.
Qed.

(** The interceptor of the earlier variant does not change the case of a
    name: it adds the [accept] of the command line to the common defaults,
    next to their [Accept]. *)
Lemma legacy_interceptor_keeps_case :
  common
    (Legacy.interceptor (number:=Z) (Demo.with_headers [("accept", "text/html")])
       (Demo.get_request [("accept", "text/html")])).1
  = [("Accept", "application/json, text/plain, */*"); ("accept", "text/html")].
Proof. by vm_compute. Qed.

(** ** The blocks of [sendRequest] *)

Section SendRequest.

Context {number : Type}.
Variable falsy_number : number → bool.
Variable JSON_parse : string → option (json number).
Variable mime_contentType : string → option string.
Variable boundary : string.
Variable URL_new : string → option URL.

Local Abbreviation attach_body := (attach_body JSON_parse mime_contentType boundary).
Local Abbreviation override_method := (override_method falsy_number).
Local Abbreviation configure_proxy := (configure_proxy (number:=number) URL_new).
Local Abbreviation reaches_axios := (reaches_axios JSON_parse URL_new).
Local Abbreviation body_truthy := (body_truthy falsy_number).
Local Abbreviation json_truthy := (json_truthy falsy_number).
Local Abbreviation sendRequest :=
  (sendRequest falsy_number JSON_parse mime_contentType boundary URL_new).
Local Abbreviation onResponse := (onResponse falsy_number).

Local Ltac run :=
  unfold mbind, result_mbind, result_bind, mret, result_mret, tell, throw.

Lemma truthy_nonempty s : s ≠ "" → truthy s = true.
Proof. intros Hs. unfold truthy. by apply String.eqb_neq in Hs as ->. Qed.

Lemma given_Some s : s ≠ "" → given (Some s) = Some s.
Proof. intros Hs. unfold given. by rewrite truthy_nonempty. Qed.

(** The body block prints nothing and touches no header but the content
    type. *)
Lemma attach_body_Ok fs cmd h0 h d l :
  attach_body fs cmd h0 = Ok (h, d) l →
  l = [] ∧ ∀ k, k ≠ "content-type" → obj_get k h = obj_get k h0.
Proof.
  unfold attach_body, readFileSync, parse_data. run.
  destruct (given (commander.datafile cmd)) as [path|].
  - destruct (fs !! path); [|done]. intros [= <- <- <-]. split; [done|].
    intros k Hk. unfold assignIn, assign, form_headers. simpl.
    by rewrite obj_get_define_ne.
  - destruct (optarg_truthy (commander.data cmd)); [|by intros [= <- <- <-]].
    assert (Hh : ∀ k, k ≠ "content-type" →
      obj_get k match given (commander.type cmd) with
                | Some type =>
                    obj_set "content-type"
                      (getContentTypes mime_contentType type) h0
                | None => h0
                end = obj_get k h0).
    { intros k Hk. destruct (given (commander.type cmd)); [|done].
      by rewrite obj_get_set_ne. }
    destruct (commander.data cmd) as [| |s]; [done| |].
    + destruct (JSON_parse "true"); [|done]. by intros [= <- <- <-].
    + destruct (JSON_parse s); by intros [= <- <- <-].
Qed.

(** A data string that is not empty, without a data file. *)
Lemma attach_body_data fs cmd h0 s :
  given (commander.datafile cmd) = None →
  commander.data cmd = Given s → s ≠ "" →
  ∃ h, attach_body fs cmd h0
       = Ok (h, Some match JSON_parse s with
                     | Some v => Parsed v
                     | None => Props (props2json s)
                     end) [].
Proof.
  intros Hfile Hdata Hs. unfold attach_body, parse_data. run.
  rewrite Hfile, Hdata. simpl. rewrite (truthy_nonempty s Hs).
  destruct (JSON_parse s); eauto.
Qed.

Lemma override_method_run d method :
  override_method d method
  = if body_truthy d && String.eqb (toUpperCase method) "GET"
    then Ok "POST"
           [Log Warning (Text "Cannot send data with GET, POST will be used")]
    else Ok method [].
Proof.
  unfold override_method. run.
  by destruct (body_truthy d && String.eqb (toUpperCase method) "GET").
Qed.

Lemma logverbose_no_error cmd (msg : message number) data :
  Forall (λ e, is_error e = false) (logverbose cmd msg data).
Proof.
  unfold logverbose. destruct (commander.verbose cmd); [|done].
  destruct data; repeat constructor.
Qed.

Lemma logverbose_no_warning cmd (msg : message number) data m :
  Log Warning m ∉ logverbose cmd msg data.
Proof.
  unfold logverbose. destruct (commander.verbose cmd); [|by apply not_elem_of_nil].
  destruct data; rewrite ?not_elem_of_cons; repeat split; try done;
    apply not_elem_of_nil.
Qed.

(** The proxy block reports no error: it returns or throws. *)
Lemma configure_proxy_Ok cmd url t p l :
  configure_proxy cmd url = Ok (t, p) l →
  Forall (λ e, is_error e = false) l.
Proof.
  unfold configure_proxy, newURL. run.
  destruct (given (commander.proxy cmd)) as [proxy|]; [|by intros [= <- <- <-]].
  destruct (URL_new proxy) as [proxyUrl|]; [|done].
  destruct (URL_new url) as [targetUrl|]; [|done]. simpl.
  destruct (String.eqb (protocol proxyUrl) "http:"
            && String.eqb (protocol targetUrl) "https:"); simpl;
    intros [= <- <- <-]; rewrite ?app_nil_r, ?app_nil_l;
    repeat apply Forall_app_2; auto using logverbose_no_error.
Qed.

(** When no block throws, both fallible blocks return. *)
Lemma reaches_axios_blocks fs cmd url h0 :
  reaches_axios fs cmd url = true →
  (∃ h d, attach_body fs cmd h0 = Ok (h, d) [])
  ∧ ∃ t p l, configure_proxy cmd url = Ok (t, p) l.
Proof.
  unfold reaches_axios. intros [Hbody Hproxy]%andb_true_iff. split.
  - unfold attach_body, readFileSync, parse_data. run.
    destruct (given (commander.datafile cmd)) as [path|].
    + apply bool_decide_eq_true in Hbody as [bytes ->]. eauto.
    + destruct (commander.data cmd) as [| |s]; simpl.
      * eauto.
      * apply bool_decide_eq_true in Hbody as [v ->]. eauto.
      * destruct (truthy s); [|eauto]. destruct (JSON_parse s); eauto.
  - unfold configure_proxy, newURL. run.
    destruct (given (commander.proxy cmd)) as [proxy|]; [|eauto].
    apply andb_true_iff in Hproxy as [[? ->]%bool_decide_eq_true
                                       [? ->]%bool_decide_eq_true].
    simpl. match goal with |- context [if ?b then _ else _] => destruct b end;
      simpl; eauto.
Qed.

(** [sendRequest] in terms of its blocks. *)
Lemma sendRequest_run fs cmd method url h d l1 t p l2 :
  attach_body fs cmd (commander.header cmd) = Ok (h, d) l1 →
  configure_proxy cmd url = Ok (t, p) l2 →
  ∃ log,
    sendRequest fs cmd method url
    = Ok (t, options.make
               (if startsWith "http" url then url else "https://" +:+ url)
               (if body_truthy d && String.eqb (toUpperCase method) "GET"
                then "POST" else method)
               match given (commander.output cmd) with
               | Some _ => Some "stream"
               | None => None
               end
               (inject_cookie fs cmd h) d p) log
    ∧ (l1 = [] → Forall (λ e, is_error e = false) l2 →
       Forall (λ e, is_error e = false) log)
    ∧ (body_truthy d && String.eqb (toUpperCase method) "GET" = true →
       Log Warning (Text "Cannot send data with GET, POST will be used") ∈ log).
Proof.
  intros Hbody Hproxy. unfold sendRequest.
  unfold mbind at 1 2 3 4, result_mbind, result_bind, tell.
  rewrite Hbody, override_method_run, Hproxy.
  destruct (body_truthy d && String.eqb (toUpperCase method) "GET");
    simpl; (eexists; split; [reflexivity|]); split.
  - intros -> Hl2. repeat apply Forall_app_2; auto using logverbose_no_error.
    simpl. constructor; [done|].
    repeat apply Forall_app_2; auto using logverbose_no_error.
  - intros _. rewrite !elem_of_app, elem_of_cons. auto.
  - intros -> Hl2. repeat apply Forall_app_2; auto using logverbose_no_error.
  - done.
Qed.

Lemma inject_cookie_missing fs cmd h path :
  commander.cookie cmd = Some path → fs !! path = None →
  inject_cookie fs cmd h = h.
Proof.
  intros Hcookie Hfile. unfold inject_cookie, given. rewrite Hcookie.
  destruct (truthy path); [by rewrite Hfile | done].
Qed.

Lemma inject_cookie_present fs cmd h path content :
  commander.cookie cmd = Some path → truthy path = true →
  fs !! path = Some content →
  inject_cookie fs cmd h = obj_set "cookie" (cookie_header content) h.
Proof.
  intros Hcookie Hpath Hfile. unfold inject_cookie, given.
  by rewrite Hcookie, Hpath, Hfile.
Qed.

(** What every request that reaches the transport has in common. *)
Lemma sendRequest_reaches fs cmd method url :
  reaches_axios fs cmd url = true →
  ∃ h d t p log,
    attach_body fs cmd (commander.header cmd) = Ok (h, d) []
    ∧ sendRequest fs cmd method url
      = Ok (t, options.make
                 (if startsWith "http" url then url else "https://" +:+ url)
                 (if body_truthy d && String.eqb (toUpperCase method) "GET"
                  then "POST" else method)
                 match given (commander.output cmd) with
                 | Some _ => Some "stream"
                 | None => None
                 end
                 (inject_cookie fs cmd h) d p) log
    ∧ Forall (λ e, is_error e = false) log
    ∧ (body_truthy d && String.eqb (toUpperCase method) "GET" = true →
       Log Warning (Text "Cannot send data with GET, POST will be used") ∈ log).
Proof.
  intros Hreach.
  destruct (reaches_axios_blocks fs cmd url (commander.header cmd) Hreach)
    as [(h & d & Hbody) (t & p & l & Hproxy)].
  destruct (sendRequest_run fs cmd method url h d [] t p l Hbody Hproxy)
    as (log & Hsend & Herr & Hwarn).
  exists h, d, t, p, log. repeat split; auto.
  apply Herr; [done|]. by eapply configure_proxy_Ok.
Qed.

(** Otherwise the data file, the bare data flag or a URL of the proxy
    block makes [sendRequest] throw, and nothing is sent. *)
Lemma sendRequest_throws fs cmd method url :
  reaches_axios fs cmd url = false →
  ∃ e log, sendRequest fs cmd method url = Throw e log.
Proof.
  intros Hreach. unfold sendRequest.
  unfold mbind at 1 2, result_mbind, result_bind, tell.
  destruct (attach_body fs cmd (commander.header cmd)) as [[h d] l1|e l1]
    eqn:Hbody; [|eauto].
  rewrite override_method_run.
  assert (Hproxy : ∃ e l, configure_proxy cmd url = Throw e l).
  { revert Hreach Hbody.
    unfold reaches_axios, attach_body, configure_proxy, readFileSync,
      parse_data, newURL. run.
    destruct (given (commander.datafile cmd)) as [path|].
    - destruct (fs !! path) eqn:Hfile; [|done]. intros Hreach _.
      rewrite bool_decide_eq_true_2 in Hreach by eauto. simpl in Hreach.
      destruct (given (commander.proxy cmd)) as [proxy|]; [|done].
      destruct (URL_new proxy); [|eauto].
      destruct (URL_new url); [|eauto].
      by rewrite !bool_decide_eq_true_2 in Hreach by eauto.
    - intros Hreach Hbody.
      assert (Hdata : match commander.data cmd with
                      | Bare => bool_decide (is_Some (JSON_parse "true"))
                      | _ => true
                      end = true).
      { destruct (commander.data cmd); try done. simpl in Hbody.
        destruct (JSON_parse "true"); [|done].
        by rewrite bool_decide_eq_true_2 by eauto. }
      rewrite Hdata in Hreach. simpl in Hreach.
      destruct (given (commander.proxy cmd)) as [proxy|]; [|done].
      destruct (URL_new proxy); [|eauto].
      destruct (URL_new url); [|eauto].
      by rewrite !bool_decide_eq_true_2 in Hreach by eauto. }
  destruct Hproxy as (e & l & Hproxy).
  destruct (body_truthy d && String.eqb (toUpperCase method) "GET");
    unfold mbind, result_mbind, result_bind; rewrite Hproxy; eauto.
Qed.

(** ** The request body *)

(** C1, amended: a data string that is not empty, given without a data
    file, becomes the body: the value [JSON.parse] reads from it, or else
    the object that [props2json] makes of it.  That object is the
    properties-style parse of the specification (continuations collapsed,
    split on newlines, each line split on its first [=], both sides
    trimmed, a line without [=] giving its trimmed text the empty value)
    on every text that has at most one continuation, no line starting
    with [=], and no key [__proto__]. *)
Theorem data_string_becomes_body fs cmd method url d :
  commander.data cmd = Given d → truthy d = true →
  given (commander.datafile cmd) = None →
  reaches_axios fs cmd url = true →
  ∃ t o log,
    sendRequest fs cmd method url = Ok (t, o) log
    ∧ options.data o
      = Some match JSON_parse d with
             | Some v => Parsed v
             | None => Props (props2json d)
             end
    ∧ ((Spec.continuations d ≤ 1)%nat →
       Forall (λ line, startsWith "=" line = false)
         (split LF (Spec.collapse d)) →
       Forall (λ line, (Spec.entry line).1 ≠ "__proto__")
         (split LF (Spec.collapse d)) →
       props2json d = Spec.properties_parse d).
Proof.
  intros Hdata Hd Hfile Hreach.
  destruct (sendRequest_reaches fs cmd method url Hreach)
    as (h & b & t & p & log & Hbody & Hsend & _).
  assert (Hne : d ≠ "") by (intros ->; done).
  destruct (attach_body_data fs cmd (commander.header cmd) d Hfile Hdata Hne)
    as [h' Hbody'].
  rewrite Hbody' in Hbody. injection Hbody as <- <-.
  eexists _, _, _. split; [exact Hsend|]. split; [done|].
  apply props2json_properties.
Qed.

(** ** The cookie file *)

(** C6: with a cookie file configured that does not exist, the request is
    sent, no error is printed, and the headers of the request are those of
    the command line (next to the content type of the body): in particular
    there is a cookie header only if [-H] gave one. *)
Theorem missing_cookie_file_adds_nothing fs cmd method url path :
  commander.cookie cmd = Some path → fs !! path = None →
  reaches_axios fs cmd url = true →
  ∃ t o log,
    sendRequest fs cmd method url = Ok (t, o) log
    ∧ Forall (λ e, is_error e = false) log
    ∧ (∀ k, k ≠ "content-type" →
         obj_get k (options.headers o) = obj_get k (commander.header cmd))
    ∧ (obj_get "cookie" (commander.header cmd) = None →
       obj_get "cookie" (options.headers o) = None).
Proof.
  intros Hcookie Hfile Hreach.
  destruct (sendRequest_reaches fs cmd method url Hreach)
    as (h & b & t & p & log & Hbody & Hsend & Herr & _).
  apply attach_body_Ok in Hbody as [_ Hh].
  eexists _, _, _. split; [exact Hsend|]. split; [done|]. simpl.
  rewrite (inject_cookie_missing _ _ _ _ Hcookie Hfile).
  split; [done|]. intros <-. by apply Hh.
Qed.


(** ** The target URL *)

(** The scheme is added exactly when the target does not start with the
    four characters [http]; a target with the scheme [http://] or
    [https://] is therefore kept. *)
Lemma sendRequest_url fs cmd method url :
  reaches_axios fs cmd url = true →
  ∃ t o log,
    sendRequest fs cmd method url = Ok (t, o) log
    ∧ options.url o = (if startsWith "http" url then url else "https://" +:+ url)
    ∧ (Spec.has_scheme url = true → options.url o = url).
Proof.
  intros Hreach.
  destruct (sendRequest_reaches fs cmd method url Hreach)
    as (h & b & t & p & log & _ & Hsend & _).
  eexists _, _, _. split; [exact Hsend|]. split; [done|]. cbn [options.url].
  unfold Spec.has_scheme. intros [Hs|Hs]%orb_true_iff.
  - by rewrite (startsWith_app "http" "://" url Hs).
  - by rewrite (startsWith_app "http" "s://" url Hs).
Qed.

End SendRequest.

(** ** The claims on concrete command lines *)

Lemma data_string_becomes_body_example :
  ∃ t o log,
    Demo.sendRequest ∅ (Demo.with_data "name=alice") "POST" "http://example.com/x"
    = Ok (t, o) log
    ∧ options.data o = Some (Props [("name", "alice")])
    ∧ props2json "name=alice" = Spec.properties_parse "name=alice".
Proof.
  destruct (data_string_becomes_body Demo.falsy_number Demo.JSON_parse
              Demo.mime_contentType Demo.boundary Demo.URL_new
              ∅ (Demo.with_data "name=alice") "POST" "http://example.com/x"
              "name=alice")
    as (t & o & log & Hsend & Hdata & Hparse); [reflexivity..|].
  exists t, o, log. split; [exact Hsend|]. split; [exact Hdata|].
  apply Hparse.
  - vm_compute. lia.
  - repeat constructor.
  - repeat constructor. by vm_compute.
Defined.

(** C1 as stated fails on the empty data string: it is not JSON, its
    properties-style parse is the object with one empty name, and yet the
    request has no body.  It also fails on a line that starts with [=],
    which is not split at all. *)
Lemma empty_data_string_gives_no_body :
  Demo.JSON_parse "" = None
  ∧ Spec.properties_parse "" = [("", "")]
  ∧ Demo.sendRequest ∅ (Demo.with_data "") "POST" "http://example.com/x"
    = Ok (Axios, options.make "http://example.com/x" "POST" None [] None None)
        []
  ∧ (None : option (body Z)) ≠ Some (Props (Spec.properties_parse ""))
  ∧ Demo.JSON_parse "=v" = None
  ∧ Spec.properties_parse "=v" = [("", "v")]
  ∧ Demo.sendRequest ∅ (Demo.with_data "=v") "POST" "http://example.com/x"
    = Ok (Axios,
          options.make "http://example.com/x" "POST" None []
            (Some (Props [("=v", "")])) None) [].
Proof. by vm_compute. Qed.

(** Nor is a line with the key [__proto__] parsed as the specification
    says: it leaves no entry at all. *)
Lemma proto_line_gives_no_entry :
  props2json "__proto__=x" = []
  ∧ Spec.properties_parse "__proto__=x" = [("__proto__", "x")].
Proof. by vm_compute. Qed.

Lemma missing_cookie_file_adds_nothing_example :
  ∃ t o log,
    Demo.sendRequest ∅ (Demo.with_cookie [("accept", "text/html")] "jar")
      "GET" "http://example.com/x"
    = Ok (t, o) log
    ∧ Forall (λ e, is_error e = false) log
    ∧ obj_get "cookie" (options.headers o) = None.
Proof.
  destruct (missing_cookie_file_adds_nothing Demo.falsy_number Demo.JSON_parse
              Demo.mime_contentType Demo.boundary Demo.URL_new
              ∅ (Demo.with_cookie [("accept", "text/html")] "jar")
              "GET" "http://example.com/x" "jar")
    as (t & o & log & Hsend & Herr & _ & Hnone); [reflexivity..|].
  exists t, o, log. split; [exact Hsend|]. split; [exact Herr|].
  apply Hnone. reflexivity.
Defined.


(** The lines of a cookie file are cut as the specification says when
    they do not start with [;]. *)
Lemma cookie_pair_strip line :
  startsWith ";" line = false → cookie_pair line = Spec.strip_attributes line.
Proof.
  intros Hfirst. unfold cookie_pair, indexOf, Spec.strip_attributes.
  destruct (find_char ";" line) as [i|] eqn:Hfind.
  - rewrite (split_first_Some _ _ _ Hfind). destruct i as [|i].
    + apply find_char_first in Hfind. unfold char in Hfind. congruence.
    + replace (0 <? Z.of_nat (S i)) with true by (symmetry; apply Z.ltb_lt; lia).
      by rewrite Nat2Z.id, substring_prefix.
  - rewrite (split_first_None _ _ Hfind). change (0 <? -1) with false.
    cbv iota. by rewrite substring_prefix, take_length.
Qed.

Lemma cookie_header_value content :
  Forall (λ line, startsWith ";" line = false) (split LF content) →
  cookie_header content = Spec.cookie_value content.
Proof.
  intros Hlines. unfold cookie_header, Spec.cookie_value. f_equal.
  induction Hlines as [|line lines Hline _ IH]; [done|].
  rewrite !fmap_cons. by rewrite cookie_pair_strip, IH.
Qed.

(** C5: every line of the cookie file is meant to lose what follows its
    first [;], but the test [indexOf(';') > 0] misses a [;] in the first
    position: such a line is put into the cookie header whole, in both
    variants of the command. *)
Theorem cookie_line_starting_with_semicolon_is_kept :
  Demo.sendRequest {[ "jar" := Demo.attribute_only_jar ]}
    (Demo.with_cookie [] "jar") "GET" "http://example.com/x"
  = Ok (Axios,
        options.make "http://example.com/x" "GET" None
          [("cookie", "sid=1; ;Secure")] None None) []
  ∧ Legacy.sendRequest Demo.JSON_parse Demo.inherited
      {[ "jar" := Demo.attribute_only_jar ]}
      (Demo.with_cookie [] "jar") "GET" "http://example.com/x"
    = Ok (options.make "http://example.com/x" "GET" None
            [("Cookie", "sid=1; ;Secure")] None None) []
  ∧ Spec.cookie_value Demo.attribute_only_jar = "sid=1; "
  ∧ cookie_header Demo.attribute_only_jar
    ≠ Spec.cookie_value Demo.attribute_only_jar.
Proof. by vm_compute. Qed.

(** C7: a target without a scheme is meant to get [https://], but the
    test is only whether it starts with the characters [http]: a host
    whose name starts with them is sent as it was typed. *)
Theorem host_starting_with_http_gets_no_scheme :
  Spec.has_scheme "httpbin.org/get" = false
  ∧ Demo.sendRequest ∅ Demo.bare "GET" "httpbin.org/get"
    = Ok (Axios, options.make "httpbin.org/get" "GET" None [] None None) []
  ∧ Demo.sendRequest ∅ Demo.bare "GET" "example.com/x"
    = Ok (Axios, options.make "https://example.com/x" "GET" None [] None None)
        [].
Proof. by vm_compute. Qed.

(** * Further properties of the two files *)

(** ** More on strings and objects *)

Lemma find_char_cons_None c a s :
  find_char c (String a s) = None → Ascii.eqb a c = false ∧ find_char c s = None.
Proof.
  cbn [find_char]. destruct (Ascii.eqb a c); [done|].
  by destruct (find_char c s).
Qed.

Lemma startsWith_newline_absent s :
  find_char LF s = None → startsWith newline s = false.
Proof.
  destruct s as [|a s]; [done|]. intros [Ha _]%find_char_cons_None.
  unfold newline, char. cbn [startsWith].
  by rewrite Ascii.eqb_sym, Ha.
Qed.

Lemma replace_absent rep s :
  find_char LF s = None → replace backslash_newline rep s = s.
Proof.
  induction s as [|a s IH]; [done|]. intros [_ Hs]%find_char_cons_None.
  cbn [replace]. unfold backslash_newline at 1. cbn [startsWith].
  by rewrite startsWith_newline_absent, andb_false_r, IH.
Qed.

Lemma split_pieces c s : Forall (λ p, find_char c p = None) (split c s).
Proof.
  induction s as [|a s IH]; cbn [split]; [by repeat constructor|].
  destruct (Ascii.eqb a c) eqn:Ha; [by constructor|].
  destruct (split c s) as [|piece rest].
  - repeat constructor. unfold char. cbn [find_char]. by rewrite Ha.
  - apply Forall_cons in IH as [Hpiece Hrest]. constructor; [|done].
    cbn [find_char]. by rewrite Ha, Hpiece.
Qed.

Lemma split_join c pieces :
  pieces ≠ [] → Forall (λ p, find_char c p = None) pieces →
  split c (join (char c) pieces) = pieces.
Proof.
  induction pieces as [|p [|q rest] IH]; [done| |]; intros _ Hall.
  - apply Forall_cons in Hall as [Hp _]. by apply split_absent.
  - apply Forall_cons in Hall as [Hp Hall].
    change (join (char c) (p :: q :: rest))
      with (p +:+ String c (join (char c) (q :: rest))).
    rewrite split_app by done. by rewrite IH.
Qed.

Lemma take_drop n s : take n s +:+ drop n s = s.
Proof.
  revert n. induction s as [|a s IH]; intros [|n]; try done.
  cbn [take drop]. change (String a (take n s) +:+ drop n s)
    with (String a (take n s +:+ drop n s)). by rewrite IH.
Qed.

Lemma find_char_take c s i : find_char c s = Some i → find_char c (take i s) = None.
Proof.
  revert i. induction s as [|a s IH]; intros i; [done|]. cbn [find_char].
  destruct (Ascii.eqb a c) eqn:Ha; [by intros [= <-]|].
  destruct (find_char c s) as [j|]; [|done]. intros [= <-].
  cbn [take find_char]. by rewrite Ha, (IH j).
Qed.

Lemma drop_app_succ a c r : drop (S (String.length a)) (a +:+ String c r) = r.
Proof. induction a as [|x a IH]; [done | exact IH]. Qed.

Lemma append_empty s : s +:+ "" = s.
Proof.
  induction s as [|a s IH]; [done|].
  change (String a s +:+ "") with (String a (s +:+ "")). by rewrite IH.
Qed.

(** [trim] leaves nothing to trim. *)
Lemma trimEnd_idemp s : trimEnd (trimEnd s) = trimEnd s.
Proof.
  induction s as [|a s IH]; [done|]. cbn [trimEnd].
  destruct (trimEnd s) as [|b t] eqn:Ht.
  - destruct (is_white a) eqn:Ha; [done|]. unfold char. cbn [trimEnd].
    by rewrite Ha.
  - cbn [trimEnd]. cbn [trimEnd] in IH. by rewrite IH.
Qed.

Lemma trimStart_trimEnd s :
  trimStart s = s → trimStart (trimEnd s) = trimEnd s.
Proof.
  destruct s as [|a s]; [done|]. cbn [trimStart trimEnd].
  destruct (is_white a) eqn:Ha.
  - intros Hs. exfalso.
    assert (Hlen : ∀ t, (String.length (trimStart t) ≤ String.length t)%nat).
    { induction t as [|x t IHt]; cbn [trimStart]; [done|].
      destruct (is_white x); simpl; lia. }
    specialize (Hlen s). rewrite Hs in Hlen. simpl in Hlen. lia.
  - intros _. destruct (trimEnd s); unfold char; cbn [trimStart];
      by rewrite Ha.
Qed.

Lemma trimStart_idemp s : trimStart (trimStart s) = trimStart s.
Proof.
  induction s as [|a s IH]; [done|]. cbn [trimStart].
  destruct (is_white a) eqn:Ha; [done|]. cbn [trimStart]. by rewrite Ha.
Qed.

Lemma trim_idemp s : trim (trim s) = trim s.
Proof.
  unfold trim. rewrite (trimStart_trimEnd (trimStart s)) by apply trimStart_idemp.
  apply trimEnd_idemp.
Qed.

Lemma obj_define_elem_of {V} k (v : V) o e :
  e ∈ obj_define k v o → e = (k, v) ∨ e ∈ o.
Proof.
  induction o as [|[k1 v1] o IH]; cbn [obj_define].
  - intros ?%list_elem_of_singleton. auto.
  - destruct (String.eqb k1 k) eqn:Hk; rewrite !elem_of_cons.
    + apply String.eqb_eq in Hk as ->. intros [->|?]; auto.
    + intros [->|[->|?]%IH]; auto.
Qed.

Lemma obj_set_elem_of {V} k (v : V) o e :
  e ∈ obj_set k v o → e = (k, v) ∨ e ∈ o.
Proof.
  destruct (obj_set_cases k v o) as [-> | ->];
    [auto | apply obj_define_elem_of].
Qed.

Lemma obj_get_Some_elem_of {V} k (v : V) o : obj_get k o = Some v → (k, v) ∈ o.
Proof.
  induction o as [|[k1 v1] o IH]; [done|]. cbn [obj_get].
  destruct (String.eqb k1 k) eqn:Hk; rewrite elem_of_cons.
  - apply String.eqb_eq in Hk as ->. intros [= ->]. auto.
  - auto.
Qed.

Lemma obj_set_fresh {V} k (v : V) o :
  k ≠ "__proto__" → k ∉ o.*1 → obj_set k v o = o ++ [(k, v)].
Proof.
  intros Hproto. rewrite obj_set_plain by done.
  induction o as [|[k1 v1] o IH]; [done|]. rewrite fmap_cons, not_elem_of_cons.
  intros [Hk Ho]. cbn [obj_define fst].
  assert (String.eqb k1 k = false) as -> by (by apply String.eqb_neq).
  by rewrite IH.
Qed.

Lemma last_filter_Some {A} (P : A → Prop) `{∀ x, Decision (P x)} l x :
  last (filter P l) = Some x → P x ∧ x ∈ l.
Proof. intros Hlast%last_Some_elem_of. by apply list_elem_of_filter in Hlast. Qed.

(** ** The properties-style parse, line by line *)

Lemma obj_define_nonempty {V} k (v : V) o : obj_define k v o ≠ [].
Proof.
  destruct o as [|[k1 v1] o]; cbn [obj_define]; [done|].
  by destruct (String.eqb k1 k).
Qed.

Lemma obj_set_nil_iff {V} k (v : V) o :
  obj_set k v o = [] ↔ o = [] ∧ k = "__proto__".
Proof.
  unfold obj_set. destruct (String.eqb k "__proto__") eqn:Hk.
  - apply String.eqb_eq in Hk as ->.
    destruct (obj_get "__proto__" o) eqn:Ho.
    + split; [by intros ?%obj_define_nonempty | by intros [-> _]].
    + split; [by intros -> | by intros [-> _]].
  - apply String.eqb_neq in Hk.
    split; [by intros ?%obj_define_nonempty | by intros [_ ?]].
Qed.

Lemma props_line_pair o line :
  props_line o line = obj_set (props_pair line).1 (props_pair line).2 o.
Proof. reflexivity. Qed.

Lemma obj_get_fold_props_line k lines acc :
  k ≠ "__proto__" →
  obj_get k (fold_left props_line lines acc)
  = match snd <$> last (filter (λ e, e.1 = k) (props_pair <$> lines)) with
    | Some v => Some v
    | None => obj_get k acc
    end.
Proof.
  intros Hproto. induction lines as [|line lines IH] using rev_ind; [done|].
  rewrite fold_left_app, fmap_app, filter_app. cbn [fold_left].
  rewrite props_line_pair, obj_get_set by done.
  cbn [fmap list_fmap]. rewrite filter_cons, filter_nil.
  case_decide as Hk.
  - by rewrite last_snoc.
  - by rewrite app_nil_r.
Qed.

Lemma fold_props_line_proto lines acc :
  obj_get "__proto__" acc = None →
  obj_get "__proto__" (fold_left props_line lines acc) = None.
Proof.
  revert acc. induction lines as [|line lines IH]; intros acc Hacc; [done|].
  cbn [fold_left]. apply IH. rewrite props_line_pair.
  by apply obj_get_set_proto.
Qed.

Lemma obj_get_props2json props k :
  obj_get k (props2json props)
  = if decide (k = "__proto__") then None
    else snd <$> last (filter (λ e, e.1 = k)
                         (props_pair
                            <$> split LF (replace backslash_newline " " props))).
Proof.
  unfold props2json. case_decide as Hk.
  - subst. by apply fold_props_line_proto.
  - rewrite obj_get_fold_props_line by done. by destruct (snd <$> last _).
Qed.

(** X1: when several lines give the same key, the last of them decides
    its value; a key that no line gives is absent, and so is the key
    [__proto__], which is never stored. *)
Theorem props2json_last_line_wins props k :
  obj_get k (props2json props)
  = if decide (k = "__proto__") then None
    else snd <$> last (filter (λ e, e.1 = k)
                         (props_pair
                            <$> split LF (replace backslash_newline " " props))).
Proof. apply obj_get_props2json. Qed.

Lemma fold_props_line_nil lines acc :
  fold_left props_line lines acc = []
  ↔ acc = [] ∧ Forall (λ line, (props_pair line).1 = "__proto__") lines.
Proof.
  revert acc. induction lines as [|line lines IH]; intros acc.
  - cbn [fold_left]. split; [by intros -> | by intros [-> _]].
  - cbn [fold_left]. rewrite IH, props_line_pair, obj_set_nil_iff, Forall_cons.
    tauto.
Qed.

(** X2: the object that [props2json] returns is empty only when every
    line has the key [__proto__]; any other line, blank or not, gives a
    key. *)
Theorem props2json_empty_iff props :
  props2json props = []
  ↔ Forall (λ line, (props_pair line).1 = "__proto__")
      (split LF (replace backslash_newline " " props)).
Proof. unfold props2json. rewrite fold_props_line_nil. tauto. Qed.

(** X3: every key and every value of the result is trimmed: trimming it
    again changes nothing. *)
Theorem props2json_trimmed props k v :
  obj_get k (props2json props) = Some v → trim k = k ∧ trim v = v.
Proof.
  rewrite obj_get_props2json. case_decide; [done|].
  destruct (last _) as [[k' v']|] eqn:Hlast; [|done]. intros [= <-].
  apply last_filter_Some in Hlast as [Hk Hin]. cbn [fst] in Hk. subst k'.
  apply list_elem_of_fmap in Hin as (line & Hpair & _).
  unfold props_pair in Hpair. injection Hpair as -> ->.
  by rewrite !trim_idemp.
Qed.

Lemma props2json_trimmed_example :
  obj_get "k" (props2json " k =  v ") = Some "v"
  ∧ trim "k" = "k" ∧ trim "v" = "v".
Proof.
  split; [reflexivity|].
  apply (props2json_trimmed " k =  v " "k" "v"). reflexivity.
Defined.

(** X4: a line is split at its first [=] only: what follows it, other
    [=] included, is the value, for every key but [__proto__].  (The
    header arguments differ, see C10.) *)
Theorem props2json_splits_at_first_equals k v :
  find_char "=" k = None → truthy k = true → trim k ≠ "__proto__" →
  find_char LF (k +:+ String "=" v) = None →
  props2json (k +:+ String "=" v) = [(trim k, trim v)].
Proof.
  intros Hk Hne Hproto Hline. unfold props2json.
  rewrite replace_absent, split_absent by done. cbn [fold_left].
  unfold props_line, indexOf. rewrite find_char_app_absent by done.
  assert (Hlen : (0 <? Z.of_nat (String.length k)) = true).
  { apply Z.ltb_lt. destruct k; [done | simpl; lia]. }
  rewrite Hlen, Nat2Z.id, substring_prefix, take_app_length.
  unfold substring_from. rewrite Nat.add_1_r, drop_app_succ.
  by rewrite obj_set_plain.
Qed.

Lemma props2json_splits_at_first_equals_example :
  props2json "q=a=b" = [("q", "a=b")].
Proof.
  apply (props2json_splits_at_first_equals "q" "a=b");
    [reflexivity | reflexivity | by vm_compute | reflexivity].
Defined.

(** ** The header arguments as a whole *)

(** X5: in the object built from the [-H] occurrences, neither a name
    nor a value contains [=], whatever the arguments were. *)
Theorem parse_headers_without_equals args :
  Forall (λ e, find_char "=" e.1 = None ∧ find_char "=" e.2 = None)
    (parse_headers args).
Proof.
  unfold parse_headers.
  assert (Hacc : Forall (λ e, find_char "=" e.1 = None
                              ∧ find_char "=" e.2 = None) ([] : obj string))
    by constructor.
  revert Hacc. generalize ([] : obj string).
  induction args as [|header args IH]; intros acc Hall; [done|].
  cbn [fold_left]. apply IH.
  unfold addHeader. pose proof (split_pieces "=" header) as Hpieces.
  destruct (split "=" header) as [|name [|value rest]]; [done| |].
  - apply Forall_cons in Hpieces as [Hname _]. apply Forall_forall.
    intros e [->|He]%obj_set_elem_of; [done|].
    by apply (proj1 (Forall_forall _ _) Hall).
  - apply Forall_cons in Hpieces as [Hname [Hvalue _]%Forall_cons].
    apply Forall_forall.
    intros e [->|He]%obj_set_elem_of; [done|].
    by apply (proj1 (Forall_forall _ _) Hall).
Qed.

(** ** The cookie file, in general *)

(** X6: for any [Set-Cookie] values without a line feed, what is loaded
    after a save is the list of their pairs followed by the sentinel,
    joined with [; ]. *)
Theorem cookie_save_then_load cookies :
  Forall (λ c, find_char LF c = None) cookies →
  cookie_header (cookie_file_text cookies)
  = join "; " ((cookie_pair <$> cookies) ++ ["hello=world"]).
Proof.
  intros Hcookies. unfold cookie_header, cookie_file_text, newline.
  rewrite split_join.
  - by rewrite fmap_app.
  - by destruct cookies.
  - apply Forall_app_2; [done|]. by repeat constructor.
Qed.

Lemma cookie_save_then_load_example :
  cookie_header (cookie_file_text ["id=7; HttpOnly"; "lang=en"])
  = "id=7; lang=en; hello=world".
Proof.
  apply (cookie_save_then_load ["id=7; HttpOnly"; "lang=en"]).
  repeat constructor.
Defined.

(** X7: of a line that does not start with [;], the loaded pair is the
    part before the first [;]: a prefix of the line without any [;]. *)
Theorem cookie_pair_is_prefix_without_semicolon line :
  startsWith ";" line = false →
  find_char ";" (cookie_pair line) = None
  ∧ ∃ rest, line = cookie_pair line +:+ rest.
Proof.
  intros Hfirst. unfold cookie_pair, indexOf.
  destruct (find_char ";" line) as [[|i]|] eqn:Hfind.
  - apply find_char_first in Hfind. unfold char in Hfind. congruence.
  - replace (0 <? Z.of_nat (S i)) with true by (symmetry; apply Z.ltb_lt; lia).
    rewrite Nat2Z.id, substring_prefix. split; [by apply find_char_take|].
    exists (drop (S i) line). by rewrite take_drop.
  - change (0 <? -1) with false. cbv iota.
    rewrite substring_prefix, take_length. split; [done|].
    exists "". by rewrite append_empty.
Qed.

Lemma cookie_pair_is_prefix_without_semicolon_example :
  find_char ";" (cookie_pair "id=7; HttpOnly; Path=/") = None
  ∧ ∃ rest, "id=7; HttpOnly; Path=/" = cookie_pair "id=7; HttpOnly; Path=/" +:+ rest.
Proof.
  apply (cookie_pair_is_prefix_without_semicolon "id=7; HttpOnly; Path=/").
  reflexivity.
Defined.

(** ** [keysToLower] *)

Lemma keysToLower_names_lower {V} (o : obj V) :
  Forall (λ k, toLowerCase k = k) (keysToLower o).*1.
Proof.
  apply Forall_forall. intros k [v Hk]%obj_get_elem_of.
  rewrite obj_get_keysToLower in Hk. case_decide; [done|].
  by eapply last_named_lower.
Qed.

Lemma keysToLower_no_proto {V} (o : obj V) : "__proto__" ∉ (keysToLower o).*1.
Proof.
  intros [v Hv]%obj_get_elem_of.
  rewrite obj_get_keysToLower in Hv. by case_decide.
Qed.

Lemma obj_get_absent {V} k (o : obj V) : k ∉ o.*1 → obj_get k o = None.
Proof.
  intros Hk. destruct (obj_get k o) eqn:Hget; [|done].
  destruct Hk. apply obj_get_elem_of. by eexists.
Qed.

Lemma obj_set_proto_absent {V} (v : V) o :
  "__proto__" ∉ o.*1 → obj_set "__proto__" v o = o.
Proof.
  intros Ho. unfold obj_set. cbn [String.eqb Ascii.eqb Bool.eqb].
  by rewrite obj_get_absent.
Qed.

Lemma keysToLower_from_normalized {V} (o acc : obj V) :
  NoDup (acc ++ o).*1 → Forall (λ k, toLowerCase k = k) o.*1 →
  "__proto__" ∉ acc.*1 →
  fold_left (λ result e, obj_set (toLowerCase e.1) e.2 result) o acc
  = acc ++ filter (λ e, e.1 ≠ "__proto__") o.
Proof.
  revert acc. induction o as [|[k v] o IH]; intros acc Hnd Hlow Hacc.
  { by rewrite filter_nil, app_nil_r. }
  cbn [fold_left fst snd]. rewrite fmap_cons in Hlow.
  apply Forall_cons in Hlow as [Hk Hlow]. cbn [fst] in Hk. rewrite Hk.
  rewrite fmap_app, fmap_cons in Hnd. cbn [fst] in Hnd.
  rewrite filter_cons. cbn [fst]. case_decide as Hproto.
  - rewrite obj_set_fresh; [|done|].
    + rewrite (IH (acc ++ [(k, v)])).
      * by rewrite <- app_assoc.
      * by rewrite <- app_assoc, fmap_app.
      * done.
      * rewrite fmap_app, elem_of_app. intros [?|Hin]; [done|].
        by apply list_elem_of_singleton in Hin.
    + apply NoDup_app in Hnd as (_ & Hdisj & _). intros Hin.
      apply (Hdisj k Hin). rewrite elem_of_cons. auto.
  - subst k. rewrite obj_set_proto_absent by done.
    apply IH; [|done..]. rewrite fmap_app.
    apply NoDup_app in Hnd as (Hl & Hdisj & [_ Hr]%NoDup_cons).
    apply NoDup_app. split_and!; [done| |done].
    intros x Hx Hin. apply (Hdisj x Hx). rewrite elem_of_cons. auto.
Qed.

Lemma filter_no_proto {V} (o : obj V) :
  "__proto__" ∉ o.*1 → filter (λ e, e.1 ≠ "__proto__") o = o.
Proof.
  induction o as [|[k v] o IH]; [done|].
  rewrite fmap_cons, not_elem_of_cons, filter_cons. cbn [fst].
  intros [Hk Ho]. rewrite decide_True by done. by rewrite IH.
Qed.

Lemma keysToLower_fixed {V} (o : obj V) :
  NoDup o.*1 → Forall (λ k, toLowerCase k = k) o.*1 → "__proto__" ∉ o.*1 →
  keysToLower o = o.
Proof.
  intros Hnd Hlow Hproto. unfold keysToLower.
  rewrite (keysToLower_from_normalized o []);
    [by rewrite filter_no_proto | done | done | apply not_elem_of_nil].
Qed.

(** X8: an object whose names are distinct and already in lower case
    comes back from [keysToLower] with its entries in their order, less
    the entry named [__proto__], which is never stored; without such an
    entry the object comes back as it is. *)
Theorem keysToLower_normalized {V} (o : obj V) :
  NoDup o.*1 → Forall (λ k, toLowerCase k = k) o.*1 →
  keysToLower o = filter (λ e, e.1 ≠ "__proto__") o
  ∧ ("__proto__" ∉ o.*1 → keysToLower o = o).
Proof.
  intros Hnd Hlow. split; [|by apply keysToLower_fixed].
  unfold keysToLower.
  by rewrite (keysToLower_from_normalized o []);
    [| | |apply not_elem_of_nil].
Qed.

Lemma keysToLower_normalized_example :
  keysToLower [("accept", "text/html"); ("x-token", "1")]
  = [("accept", "text/html"); ("x-token", "1")].
Proof.
  apply (keysToLower_normalized [("accept", "text/html"); ("x-token", "1")]).
  - apply (bool_decide_unpack _). by vm_compute.
  - repeat constructor.
  - apply (bool_decide_unpack _). by vm_compute.
Defined.

(** X9: [keysToLower] is idempotent. *)
Theorem keysToLower_idempotent {V} (o : obj V) :
  keysToLower (keysToLower o) = keysToLower o.
Proof.
  apply keysToLower_fixed;
    [apply keysToLower_NoDup | apply keysToLower_names_lower
    | apply keysToLower_no_proto].
Qed.

(** X10: the names of the result of [keysToLower] are exactly the
    lower-case forms of the given names other than [__proto__]: that
    name is never stored, every other header is kept and none is
    invented. *)
Theorem keysToLower_names {V} (o : obj V) k :
  k ∈ (keysToLower o).*1
  ↔ k ≠ "__proto__" ∧ ∃ k0, k0 ∈ o.*1 ∧ toLowerCase k0 = k.
Proof.
  rewrite obj_get_elem_of, obj_get_keysToLower. unfold last_named.
  case_decide as Hproto.
  { split; [by intros [? ?] | by intros [? _]]. }
  split.
  - intros [v Hv]. split; [done|].
    destruct (last (filter (λ e : string * V, toLowerCase e.1 = k) o))
      as [e|] eqn:He; [|done].
    apply last_filter_Some in He as [He Hin]. exists e.1.
    split; [by apply list_elem_of_fmap_2 | done].
  - intros (_ & k0 & [e [-> Hin]]%list_elem_of_fmap & Hk).
    assert (Hf : e ∈ filter (λ e : string * V, toLowerCase e.1 = k) o)
      by (by apply list_elem_of_filter).
    destruct (filter (λ e : string * V, toLowerCase e.1 = k) o) as [|x l]
      using rev_ind; [by apply elem_of_nil in Hf|].
    rewrite last_snoc. by eexists.
Qed.

(** ** More on [sendRequest] *)

Section MoreSendRequest.

Context {number : Type}.
Variable falsy_number : number → bool.
Variable JSON_parse : string → option (json number).
Variable mime_contentType : string → option string.
Variable boundary : string.
Variable URL_new : string → option URL.

Local Abbreviation attach_body := (attach_body JSON_parse mime_contentType boundary).
Local Abbreviation override_method := (override_method falsy_number).
Local Abbreviation configure_proxy := (configure_proxy (number:=number) URL_new).
Local Abbreviation reaches_axios := (reaches_axios JSON_parse URL_new).
Local Abbreviation body_truthy := (body_truthy falsy_number).
Local Abbreviation getContentTypes := (getContentTypes mime_contentType).
Local Abbreviation form_headers := (form_headers boundary).
Local Abbreviation sendRequest :=
  (sendRequest falsy_number JSON_parse mime_contentType boundary URL_new).
Local Abbreviation onResponse := (onResponse falsy_number).
Local Abbreviation run :=
  (run falsy_number JSON_parse mime_contentType boundary URL_new).

Local Ltac run_result :=
  unfold mbind, result_mbind, result_bind, mret, result_mret, tell, throw.

Lemma inject_cookie_other fs cmd h k :
  k ≠ "cookie" → obj_get k (inject_cookie fs cmd h) = obj_get k h.
Proof.
  intros Hk. unfold inject_cookie.
  destruct (given (commander.cookie cmd)) as [path|]; [|done].
  destruct (fs !! path); [|done]. by rewrite obj_get_set_ne.
Qed.

Lemma attach_body_datafile fs cmd h0 path bytes :
  given (commander.datafile cmd) = Some path → fs !! path = Some bytes →
  attach_body fs cmd h0
  = Ok (assignIn h0 [form_headers],
        Some (Multipart (FormData path bytes (mime_contentType path)))) [].
Proof.
  intros Hfile Hbytes. unfold attach_body, readFileSync. run_result.
  by rewrite Hfile, Hbytes.
Qed.

Lemma attach_body_nothing fs cmd h0 :
  given (commander.datafile cmd) = None →
  optarg_truthy (commander.data cmd) = false →
  attach_body fs cmd h0 = Ok (h0, None) [].
Proof.
  intros Hfile Hdata. unfold attach_body. run_result. by rewrite Hfile, Hdata.
Qed.

Lemma attach_body_typed fs cmd h0 d type :
  given (commander.datafile cmd) = None →
  commander.data cmd = Given d → truthy d = true →
  given (commander.type cmd) = Some type →
  ∃ b, attach_body fs cmd h0
       = Ok (obj_set "content-type" (getContentTypes type) h0, Some b) [].
Proof.
  intros Hfile Hdata Hd Htype. unfold attach_body, parse_data. run_result.
  rewrite Hfile, Hdata, Htype. cbn [optarg_truthy]. rewrite Hd.
  destruct (JSON_parse d); eauto.
Qed.

(** [sendRequest] in terms of its blocks, with all that it prints. *)
Lemma sendRequest_run_log fs cmd method url h d l1 t p l2 :
  attach_body fs cmd (commander.header cmd) = Ok (h, d) l1 →
  configure_proxy cmd url = Ok (t, p) l2 →
  sendRequest fs cmd method url
  = Ok (t, options.make
             (if startsWith "http" url then url else "https://" +:+ url)
             (if body_truthy d && String.eqb (toUpperCase method) "GET"
              then "POST" else method)
             match given (commander.output cmd) with
             | Some _ => Some "stream"
             | None => None
             end
             (inject_cookie fs cmd h) d p)
      (logverbose cmd
         (Text ("Sending " +:+ toUpperCase method +:+ " request to " +:+ url))
         None
       ++ l1
       ++ (if body_truthy d && String.eqb (toUpperCase method) "GET"
           then [Log Warning
                   (Text "Cannot send data with GET, POST will be used")]
           else [])
       ++ l2
       ++ logverbose cmd
            (OptionsJson
               (options.make
                  (if startsWith "http" url then url else "https://" +:+ url)
                  (if body_truthy d && String.eqb (toUpperCase method) "GET"
                   then "POST" else method)
                  match given (commander.output cmd) with
                  | Some _ => Some "stream"
                  | None => None
                  end
                  (inject_cookie fs cmd h) d p))
            None).
Proof.
  intros Hbody Hproxy. unfold sendRequest.
  unfold mbind at 1 2 3 4, result_mbind, result_bind, tell.
  rewrite Hbody, override_method_run, Hproxy.
  destruct (body_truthy d && String.eqb (toUpperCase method) "GET");
    run_result; cbv beta iota; by rewrite app_nil_r.
Qed.

(** Whatever is sent was built by the two blocks that may throw. *)
Lemma sendRequest_Ok_reaches fs cmd method url t o log :
  sendRequest fs cmd method url = Ok (t, o) log →
  reaches_axios fs cmd url = true.
Proof.
  intros Hsend. destruct (reaches_axios fs cmd url) eqn:Hreach; [done|].
  destruct (sendRequest_throws falsy_number JSON_parse mime_contentType
              boundary URL_new fs cmd method url Hreach) as (e & l & Hthrow).
  congruence.
Qed.

Lemma sendRequest_Ok_inv fs cmd method url t o log :
  sendRequest fs cmd method url = Ok (t, o) log →
  ∃ h d p,
    attach_body fs cmd (commander.header cmd) = Ok (h, d) []
    ∧ o = options.make
            (if startsWith "http" url then url else "https://" +:+ url)
            (if body_truthy d && String.eqb (toUpperCase method) "GET"
             then "POST" else method)
            match given (commander.output cmd) with
            | Some _ => Some "stream"
            | None => None
            end
            (inject_cookie fs cmd h) d p.
Proof.
  intros Hsend. pose proof (sendRequest_Ok_reaches _ _ _ _ _ _ _ Hsend) as Hreach.
  destruct (sendRequest_reaches falsy_number JSON_parse mime_contentType
              boundary URL_new fs cmd method url Hreach)
    as (h & b & t' & p & log' & Hbody & Hsend' & _).
  exists h, b, p. split; [done|]. congruence.
Qed.

(** ** The method *)

Lemma absent_body_truthy (b : option (body number)) :
  Spec.absent falsy_number b = negb (body_truthy b).
Proof.
  destruct b as [[v| |]|]; [|done..]. destruct v as [|[]|n|s|l|o]; try done.
  - cbn [Spec.absent body_truthy json_truthy]. by rewrite negb_involutive.
  - by destruct s.
Qed.

Lemma configure_proxy_no_warning cmd url t p l m :
  configure_proxy cmd url = Ok (t, p) l → Log Warning m ∉ l.
Proof.
  unfold configure_proxy, newURL. run_result.
  destruct (given (commander.proxy cmd)) as [proxy|];
    [|intros [= <- <- <-]; apply not_elem_of_nil].
  destruct (URL_new proxy) as [proxyUrl|]; [|done].
  destruct (URL_new url) as [targetUrl|]; [|done]. cbv beta iota.
  destruct (String.eqb (protocol proxyUrl) "http:"
            && String.eqb (protocol targetUrl) "https:"); cbv beta iota;
    intros [= <- <- <-]; rewrite ?app_nil_r, ?app_nil_l, ?not_elem_of_app;
    repeat split; apply logverbose_no_warning.
Qed.

Lemma other_method_is_not_get method :
  method ∈ ["POST"; "PUT"; "DELETE"; "PATCH"; "HEAD"] →
  String.eqb (toUpperCase method) "GET" = false.
Proof.
  rewrite !elem_of_cons, elem_of_nil.
  intros [->|[->|[->|[->|[->|[]]]]]]; reflexivity.
Qed.

(** C2, amended: when the body of the request is neither missing nor one
    of the JSON values null, false, zero and the empty string, a [GET]
    goes out as [POST] and the warning is printed; with such a body, or
    without any, the method is kept and no warning is printed; [POST],
    [PUT], [DELETE], [PATCH] and [HEAD] are never rewritten.  The body of
    a data string that is not empty, given without a data file, is what
    was read from it. *)
Theorem get_with_truthy_body_is_sent_as_post fs cmd method url :
  reaches_axios fs cmd url = true →
  ∃ t o log,
    sendRequest fs cmd method url = Ok (t, o) log
    ∧ (method = "GET" → Spec.absent falsy_number (options.data o) = false →
       options.method o = "POST"
       ∧ Log Warning (Text "Cannot send data with GET, POST will be used") ∈ log)
    ∧ (Spec.absent falsy_number (options.data o) = true →
       options.method o = method ∧ ∀ m, Log Warning m ∉ log)
    ∧ (method ∈ ["POST"; "PUT"; "DELETE"; "PATCH"; "HEAD"] →
       options.method o = method ∧ ∀ m, Log Warning m ∉ log)
    ∧ (∀ d, commander.data cmd = Given d → d ≠ "" →
         given (commander.datafile cmd) = None →
         options.data o
         = Some match JSON_parse d with
                | Some v => Parsed v
                | None => Props (props2json d)
                end).
Proof.
  intros Hreach.
  destruct (reaches_axios_blocks JSON_parse mime_contentType
              boundary URL_new fs cmd url (commander.header cmd) Hreach)
    as [(h & d & Hbody) (t & p & l & Hconf)].
  eexists _, _, _.
  split; [exact (sendRequest_run_log fs cmd method url _ _ _ _ _ _ Hbody Hconf)|].
  cbn [options.data options.method]. rewrite absent_body_truthy.
  assert (Hquiet : ∀ m,
    Log Warning m ∉ logverbose cmd
        (Text ("Sending " +:+ toUpperCase method +:+ " request to " +:+ url))
        None ++ [] ++ [] ++ l
      ++ logverbose cmd
           (OptionsJson
              (options.make
                 (if startsWith "http" url then url else "https://" +:+ url)
                 method
                 match given (commander.output cmd) with
                 | Some _ => Some "stream"
                 | None => None
                 end
                 (inject_cookie fs cmd h) d p))
           None).
  { intros m. rewrite !not_elem_of_app.
    split_and!; try apply logverbose_no_warning; try apply not_elem_of_nil.
    by eapply configure_proxy_no_warning. }
  split_and!.
  - intros -> ->%negb_false_iff.
    change (String.eqb (toUpperCase "GET") "GET") with true. cbn [andb].
    split; [done|]. rewrite !elem_of_app, elem_of_cons. auto.
  - by intros ->%negb_true_iff.
  - intros ->%other_method_is_not_get. by rewrite andb_false_r.
  - intros s Hdata Hs Hfile.
    destruct (attach_body_data JSON_parse mime_contentType boundary
                fs cmd (commander.header cmd) s Hfile Hdata Hs) as [h' Hbody'].
    congruence.
Qed.

(** ** The target, the body and the headers of the options *)

(** X11: the URL that reaches the transport always starts with [http]:
    completing it a second time would change nothing. *)
Theorem sent_url_starts_with_http fs cmd method url t o log :
  sendRequest fs cmd method url = Ok (t, o) log →
  startsWith "http" (options.url o) = true.
Proof.
  intros (h & d & p & _ & ->)%sendRequest_Ok_inv. cbn [options.url].
  destruct (startsWith "http" url) eqn:Hurl; [exact Hurl | reflexivity].
Qed.

(** X12: a data file wins over everything else that shapes the body: the
    body is the multipart form with the bytes of the file, whatever [-d]
    and [-t] say, and its content type replaces a [content-type] given
    with [-H]. *)
Theorem datafile_overrides_data_and_type fs cmd method url path bytes :
  given (commander.datafile cmd) = Some path → fs !! path = Some bytes →
  reaches_axios fs cmd url = true →
  ∃ t o log,
    sendRequest fs cmd method url = Ok (t, o) log
    ∧ options.data o
      = Some (Multipart (FormData path bytes (mime_contentType path)))
    ∧ obj_get "content-type" (options.headers o)
      = Some ("multipart/form-data; boundary=" +:+ boundary).
Proof.
  intros Hfile Hbytes Hreach.
  destruct (sendRequest_reaches falsy_number JSON_parse mime_contentType
              boundary URL_new fs cmd method url Hreach)
    as (h & b & t & p & log & Hbody & Hsend & _).
  rewrite (attach_body_datafile _ _ _ _ _ Hfile Hbytes) in Hbody.
  injection Hbody as <- <-.
  eexists _, _, _. split; [exact Hsend|]. split; [done|].
  cbn [options.headers]. rewrite inject_cookie_other by done.
  unfold assignIn, assign. cbn [fold_left]. apply obj_get_define_eq.
Qed.

(** X13: without a data file and without data, the request has no body,
    keeps its method, and [-t] has no effect: apart from the cookie, its
    headers are those of the command line. *)
Theorem no_data_no_body fs cmd method url :
  given (commander.datafile cmd) = None →
  optarg_truthy (commander.data cmd) = false →
  reaches_axios fs cmd url = true →
  ∃ t o log,
    sendRequest fs cmd method url = Ok (t, o) log
    ∧ options.data o = None
    ∧ options.method o = method
    ∧ ∀ k, k ≠ "cookie" →
        obj_get k (options.headers o) = obj_get k (commander.header cmd).
Proof.
  intros Hfile Hdata Hreach.
  destruct (sendRequest_reaches falsy_number JSON_parse mime_contentType
              boundary URL_new fs cmd method url Hreach)
    as (h & b & t & p & log & Hbody & Hsend & _).
  rewrite (attach_body_nothing _ _ _ Hfile Hdata) in Hbody.
  injection Hbody as <- <-.
  eexists _, _, _. split; [exact Hsend|]. split; [done|]. split; [done|].
  intros k Hk. cbn [options.headers]. by apply inject_cookie_other.
Qed.


Lemma getContentTypes_truthy type : truthy (getContentTypes type) = true.
Proof.
  unfold getContentTypes. destruct (mime_contentType type) as [ctype|]; [|done].
  by destruct (truthy ctype) eqn:Hc.
Qed.

(** X14: with data and [-t], the content type of the request is the one
    that [getContentTypes] answers, whatever [-H] gave under that name, and
    it is never the empty string. *)
Theorem type_sets_content_type fs cmd method url d type :
  given (commander.datafile cmd) = None →
  commander.data cmd = Given d → truthy d = true →
  given (commander.type cmd) = Some type →
  reaches_axios fs cmd url = true →
  ∃ t o log,
    sendRequest fs cmd method url = Ok (t, o) log
    ∧ obj_get "content-type" (options.headers o) = Some (getContentTypes type)
    ∧ truthy (getContentTypes type) = true.
Proof.
  intros Hfile Hdata Hd Htype Hreach.
  destruct (sendRequest_reaches falsy_number JSON_parse mime_contentType
              boundary URL_new fs cmd method url Hreach)
    as (h & b & t & p & log & Hbody & Hsend & _).
  destruct (attach_body_typed fs cmd (commander.header cmd) d type
              Hfile Hdata Hd Htype) as [b' Hbody'].
  rewrite Hbody' in Hbody. injection Hbody as <- <-.
  eexists _, _, _. split; [exact Hsend|].
  split; [|apply getContentTypes_truthy].
  cbn [options.headers]. rewrite inject_cookie_other by done.
  by apply obj_get_set_eq.
Qed.

(** X15: a data file that cannot be read makes [sendRequest] throw before
    anything is sent; no error is printed by [sendRequest] itself. *)
Theorem missing_datafile_throws fs cmd method url path :
  given (commander.datafile cmd) = Some path → fs !! path = None →
  ∃ log,
    sendRequest fs cmd method url = Throw (ENOENT path) log
    ∧ Forall (λ e, is_error e = false) log.
Proof.
  intros Hfile Hmissing. unfold sendRequest.
  unfold mbind at 1 2, result_mbind, result_bind, tell.
  unfold attach_body, readFileSync. rewrite Hfile, Hmissing.
  run_result. eexists. split; [reflexivity|].
  rewrite app_nil_r. apply logverbose_no_error.
Qed.

Lemma configure_proxy_parsed cmd url proxy proxyUrl targetUrl :
  given (commander.proxy cmd) = Some proxy →
  URL_new proxy = Some proxyUrl → URL_new url = Some targetUrl →
  ∃ l,
    configure_proxy cmd url
    = Ok (if String.eqb (protocol proxyUrl) "http:"
             && String.eqb (protocol targetUrl) "https:"
          then AxiosHttpsProxyFix else Axios,
          Some (ProxyOptions (hostname proxyUrl) (port proxyUrl)
                  (if truthy (username proxyUrl)
                   then Some (username proxyUrl, password proxyUrl)
                   else None))) l.
Proof.
  intros Hproxy Hp Ht. unfold configure_proxy, newURL. run_result.
  rewrite Hproxy, Hp, Ht.
  destruct (String.eqb (protocol proxyUrl) "http:"
            && String.eqb (protocol targetUrl) "https:"); eauto.
Qed.

Lemma configure_proxy_quiet cmd url t p l :
  commander.verbose cmd = false →
  configure_proxy cmd url = Ok (t, p) l → l = [].
Proof.
  intros Hquiet. unfold configure_proxy, newURL, logverbose. run_result.
  rewrite Hquiet.
  destruct (given (commander.proxy cmd)) as [proxy|]; [|by intros [= <- <- <-]].
  destruct (URL_new proxy) as [proxyUrl|]; [|done].
  destruct (URL_new url) as [targetUrl|]; [|done].
  destruct (String.eqb (protocol proxyUrl) "http:"
            && String.eqb (protocol targetUrl) "https:");
    by intros [= <- <- <-].
Qed.

(** X16: with a proxy, the target is parsed as it was typed: a target
    that [new URL] refuses makes [sendRequest] throw, also when the URL of
    the options had been completed with a scheme. *)
Theorem proxy_needs_parsable_target fs cmd method url proxy proxyUrl :
  given (commander.datafile cmd) = None → commander.data cmd ≠ Bare →
  given (commander.proxy cmd) = Some proxy →
  URL_new proxy = Some proxyUrl → URL_new url = None →
  ∃ log, sendRequest fs cmd method url = Throw (InvalidURL url) log.
Proof.
  intros Hfile Hdata Hproxy Hp Ht.
  assert (Hbody : ∃ h d, attach_body fs cmd (commander.header cmd)
                         = Ok (h, d) []).
  { unfold attach_body, parse_data. run_result. rewrite Hfile.
    destruct (commander.data cmd) as [| |s]; cbn [optarg_truthy]; [eauto|done|].
    destruct (truthy s); [|eauto]. destruct (JSON_parse s); eauto. }
  destruct Hbody as (h & d & Hbody). unfold sendRequest.
  unfold mbind at 1 2 3 4, result_mbind, result_bind, tell.
  rewrite Hbody, override_method_run.
  unfold configure_proxy, newURL. rewrite Hproxy, Hp, Ht.
  destruct (body_truthy d && String.eqb (toUpperCase method) "GET");
    run_result; eauto.
Qed.

(** X17: with a proxy and a target that both parse, the proxy of the
    options is the host and the port of the proxy URL, with credentials
    exactly when it has a user name; the alternative transport is used
    exactly when the proxy is plain [http:] and the target, as typed, is
    [https:]. *)
Theorem proxy_options_and_transport fs cmd method url proxy proxyUrl
    targetUrl t o log :
  given (commander.proxy cmd) = Some proxy →
  URL_new proxy = Some proxyUrl → URL_new url = Some targetUrl →
  sendRequest fs cmd method url = Ok (t, o) log →
  options.proxy o
  = Some (ProxyOptions (hostname proxyUrl) (port proxyUrl)
            (if truthy (username proxyUrl)
             then Some (username proxyUrl, password proxyUrl) else None))
  ∧ t = (if String.eqb (protocol proxyUrl) "http:"
            && String.eqb (protocol targetUrl) "https:"
         then AxiosHttpsProxyFix else Axios).
Proof.
  intros Hproxy Hp Ht Hsend.
  destruct (sendRequest_Ok_inv _ _ _ _ _ _ _ Hsend) as (h & d & p & Hbody & _).
  destruct (configure_proxy_parsed cmd url proxy proxyUrl targetUrl
              Hproxy Hp Ht) as [l Hconf].
  rewrite (sendRequest_run_log fs cmd method url _ _ _ _ _ _ Hbody Hconf)
    in Hsend.
  injection Hsend as <- <- _. done.
Qed.

(** X18: without [-v], [sendRequest] prints nothing, except the warning
    when it turns a [GET] with a body into a [POST]. *)
Theorem quiet_unless_verbose fs cmd method url t o log :
  commander.verbose cmd = false →
  sendRequest fs cmd method url = Ok (t, o) log →
  log = if body_truthy (options.data o)
           && String.eqb (toUpperCase method) "GET"
        then [Log Warning (Text "Cannot send data with GET, POST will be used")]
        else [].
Proof.
  intros Hquiet Hsend.
  pose proof (sendRequest_Ok_reaches _ _ _ _ _ _ _ Hsend) as Hreach.
  destruct (reaches_axios_blocks JSON_parse mime_contentType
              boundary URL_new fs cmd url (commander.header cmd) Hreach)
    as [(h & d & Hbody) (t' & p & l & Hconf)].
  pose proof (configure_proxy_quiet _ _ _ _ _ Hquiet Hconf) as ->.
  rewrite (sendRequest_run_log fs cmd method url _ _ _ _ _ _ Hbody Hconf)
    in Hsend.
  unfold logverbose in Hsend. rewrite Hquiet in Hsend.
  injection Hsend as _ <- <-. cbn [options.data].
  by destruct (body_truthy d && String.eqb (toUpperCase method) "GET").
Qed.

(** X20: a cookie file that exists decides the cookie header: its value
    replaces a [cookie] given with [-H]. *)
Theorem cookie_file_overrides_header fs cmd method url path content t o log :
  commander.cookie cmd = Some path → truthy path = true →
  fs !! path = Some content →
  sendRequest fs cmd method url = Ok (t, o) log →
  obj_get "cookie" (options.headers o) = Some (cookie_header content).
Proof.
  intros Hcookie Hpath Hfile (h & d & p & _ & ->)%sendRequest_Ok_inv.
  cbn [options.headers].
  rewrite (inject_cookie_present _ _ _ _ _ Hcookie Hpath Hfile).
  by apply obj_get_set_eq.
Qed.

(** ** The response *)

(** X21: when the response is not saved to an output file, the only
    file that its callback writes is the cookie file, and without
    [Set-Cookie] values it writes none: the cookie file keeps what it
    held. *)
Theorem cookie_file_written_only_for_set_cookie fs cmd resp written saved :
  given (commander.output cmd) = None →
  (∀ p, given (commander.cookie cmd) ≠ Some p →
        (onResponse fs cmd resp written saved).1 !! p = fs !! p)
  ∧ (set_cookie resp = None → (onResponse fs cmd resp written saved).1 = fs).
Proof.
  intros _. unfold onResponse. split.
  - intros p Hp. destruct (given (commander.cookie cmd)) as [path|]; [|done].
    destruct (set_cookie resp); [|done]. destruct saved; [done|].
    cbn [fst]. apply lookup_insert_ne. congruence.
  - intros ->. by destruct (given (commander.cookie cmd)).
Qed.

(** X22: when the response goes to an output file, neither its headers
    nor its body are put on the terminal, verbose or not. *)
Theorem output_file_hides_response fs cmd resp written saved path :
  given (commander.output cmd) = Some path →
  Forall (λ e, shows_response e = false)
    (onResponse fs cmd resp written saved).2.
Proof.
  intros Hout. unfold onResponse. rewrite Hout.
  assert (Hshown : Forall (λ e : event number, shows_response e = false)
            (Pipe path ::
             match written with
             | None => logsuccess (Text ("Response saved in " +:+ path))
             | Some err => logerr (WriteError err)
             end)).
  { constructor; [done|]. destruct written; by repeat constructor. }
  destruct (given (commander.cookie cmd)); [|done].
  destruct (set_cookie resp); [|done]. destruct saved; [|done].
  cbn [snd]. apply Forall_app_2; [done|]. by repeat constructor.
Qed.

(** ** The subcommands *)

Lemma sendRequest_method_of_six fs cmd method url t o log :
  method ∈ ["GET"; "POST"; "PUT"; "DELETE"; "PATCH"; "HEAD"] →
  sendRequest fs cmd method url = Ok (t, o) log →
  options.method o ∈ ["GET"; "POST"; "PUT"; "DELETE"; "PATCH"; "HEAD"].
Proof.
  intros Hm (h & d & p & _ & ->)%sendRequest_Ok_inv. cbn [options.method].
  destruct (body_truthy d && String.eqb (toUpperCase method) "GET"); [|done].
  rewrite !elem_of_cons. auto.
Qed.

Local Ltac subcommand k name :=
  let Hname := fresh "Hname" in
  let Hsend := fresh "Hsend" in
  destruct (String.eqb k name) eqn:Hname;
  [ apply String.eqb_eq in Hname as <-; cbv beta iota; intros [= Hsend];
    split; [rewrite !elem_of_cons; auto 10|];
    refine (sendRequest_method_of_six _ _ _ _ _ _ _ _ Hsend);
    rewrite !elem_of_cons; auto 10
  | clear Hname ].

(** X23: a request sent by a subcommand has one of the six methods, in
    capitals, and the subcommand is one of the six registered names. *)
Theorem run_sends_one_of_six_methods fs cmd name url t o log :
  run fs cmd name url = Ran (Ok (t, o) log) →
  name ∈ ["get"; "post"; "put"; "delete"; "patch"; "head"]
  ∧ options.method o ∈ ["GET"; "POST"; "PUT"; "DELETE"; "PATCH"; "HEAD"].
Proof.
  unfold run.
  change (subcommands falsy_number JSON_parse mime_contentType boundary
            URL_new fs cmd)
    with [("get", λ u, sendRequest fs cmd "GET" u);
          ("post", λ u, sendRequest fs cmd "POST" u);
          ("put", λ u, sendRequest fs cmd "PUT" u);
          ("delete", λ u, sendRequest fs cmd "DELETE" u);
          ("patch", λ u, sendRequest fs cmd "PATCH" u);
          ("head", λ u, sendRequest fs cmd "HEAD" u)].
  cbn [obj_get].
  subcommand "get" name. subcommand "post" name. subcommand "put" name.
  subcommand "delete" name. subcommand "patch" name. subcommand "head" name.
  done.
Qed.

End MoreSendRequest.

(** ** The earlier variant *)

Section MoreLegacy.

Context {number : Type}.
Variable falsy_number : number → bool.
Variable JSON_parse : string → option (json number).
Variable mime_contentType : string → option string.
Variable boundary : string.
Variable URL_new : string → option URL.
Variable inherited : string → option string.

Local Abbreviation sendRequest :=
  (sendRequest falsy_number JSON_parse mime_contentType boundary URL_new).

Local Ltac run_result :=
  unfold mbind, result_mbind, result_bind, mret, result_mret, tell, throw.

(** X24: the earlier variant sends the URL and the method as they were
    given, body or not, and never sets a proxy. *)
Theorem legacy_keeps_url_and_method fs cmd method url :
  commander.data cmd ≠ Bare →
  ∃ o log,
    Legacy.sendRequest JSON_parse inherited fs cmd method url = Ok o log
    ∧ options.url o = url ∧ options.method o = method
    ∧ options.proxy o = None.
Proof.
  intros Hdata. unfold Legacy.sendRequest, parse_data. run_result.
  destruct (commander.data cmd) as [| |s]; cbn [optarg_truthy];
    [eauto 10|done|].
  destruct (truthy s); [|eauto 10]. destruct (JSON_parse s); eauto 10.
Qed.

(** X25: without a data file, both variants give the request the same
    body. *)
Theorem legacy_and_current_body_agree fs cmd method url t o log :
  given (commander.datafile cmd) = None →
  sendRequest fs cmd method url = Ok (t, o) log →
  ∃ o' log',
    Legacy.sendRequest JSON_parse inherited fs cmd method url = Ok o' log'
    ∧ options.data o' = options.data o.
Proof.
  intros Hfile Hsend.
  destruct (sendRequest_Ok_inv _ _ _ _ _ _ _ _ _ _ _ _ Hsend)
    as (h & d & p & Hbody & ->).
  revert Hbody. unfold attach_body, Legacy.sendRequest. rewrite Hfile.
  destruct (optarg_truthy (commander.data cmd)).
  - destruct (parse_data JSON_parse (commander.data cmd)) as [b l|e l];
      run_result; [|done]. intros [= _ <- _]. eauto.
  - run_result. intros [= _ <-]. eauto.
Qed.

(** X26: a token that the library knows gives its content type, and
    every other token the form type.  The earlier variant has a table of
    its own instead: [json] and [text] give their types, a name that
    the table inherits gives the inherited member, and only the tokens
    left give the form type. *)
Theorem content_type_fallback type :
  (∀ ctype, mime_contentType type = Some ctype → ctype ≠ "" →
     getContentTypes mime_contentType type = ctype)
  ∧ (mime_contentType type = None ∨ mime_contentType type = Some "" →
     getContentTypes mime_contentType type = "application/x-www-form-urlencoded")
  ∧ Legacy.getContentTypes inherited "json" = "application/json"
  ∧ Legacy.getContentTypes inherited "text" = "text/plain"
  ∧ (type ≠ "json" → type ≠ "text" →
     Legacy.getContentTypes inherited type
     = match inherited type with
       | Some member => member
       | None => "application/x-www-form-urlencoded"
       end).
Proof.
  split_and!; [| |done|done|].
  - intros ctype Hmime Hne. unfold getContentTypes. rewrite Hmime.
    by rewrite truthy_nonempty.
  - unfold getContentTypes. by intros [-> | ->].
  - intros Hjson Htext. unfold Legacy.getContentTypes, Legacy.contentTypes.
    cbn [obj_get].
    assert (String.eqb "json" type = false) as ->
      by (apply String.eqb_neq; congruence).
    by assert (String.eqb "text" type = false) as ->
      by (apply String.eqb_neq; congruence).
Qed.

(** X27: the interceptor of the earlier variant writes into the common
    defaults of the request: afterwards a name has the value that the
    command line gives it, else the one of the method defaults, else the
    one it had, names being compared as they are written; the rest of the
    request is untouched. *)
Theorem legacy_interceptor_layers cmd req :
  request_method (Legacy.interceptor (number:=number) cmd req).1
  = request_method req
  ∧ by_method (Legacy.interceptor (number:=number) cmd req).1 = by_method req
  ∧ own_headers (Legacy.interceptor (number:=number) cmd req).1
    = own_headers req
  ∧ ∀ k,
      obj_get k (common (Legacy.interceptor (number:=number) cmd req).1)
      = match snd <$> last (filter (λ e, e.1 = k) (commander.header cmd)) with
        | Some v => Some v
        | None =>
            match snd <$> last (filter (λ e, e.1 = k)
                     (default [] (by_method req !! request_method req))) with
            | Some v => Some v
            | None => obj_get k (common req)
            end
        end.
Proof.
  repeat split. intros k. unfold Legacy.interceptor, assignIn.
  cbn [fst common fold_left]. by rewrite !obj_get_assign.
Qed.

End MoreLegacy.

(** ** The further properties on concrete command lines *)

Lemma get_with_truthy_body_is_sent_as_post_example :
  ∃ t o log,
    Demo.sendRequest ∅ (Demo.with_data "name=alice") "GET" "http://example.com/x"
    = Ok (t, o) log
    ∧ options.method o = "POST"
    ∧ Log Warning (Text "Cannot send data with GET, POST will be used") ∈ log.
Proof.
  destruct (get_with_truthy_body_is_sent_as_post Demo.falsy_number
              Demo.JSON_parse Demo.mime_contentType Demo.boundary Demo.URL_new
              ∅ (Demo.with_data "name=alice") "GET" "http://example.com/x")
    as (t & o & log & Hsend & Hpost & _ & _ & Hbody); [reflexivity|].
  exists t, o, log. split; [exact Hsend|].
  apply Hpost; [reflexivity|].
  rewrite (Hbody "name=alice"); [reflexivity | reflexivity | done | reflexivity].
Defined.

(** C2 as stated fails when the data is the JSON text of zero (and
    likewise of null, of false and of the empty string): the body is
    there, yet the [GET] stays a [GET] and no warning is printed. *)
Lemma get_with_zero_body_stays_get :
  Demo.JSON_parse "0" = Some (JNumber 0)
  ∧ Demo.sendRequest ∅ (Demo.with_data "0") "GET" "http://example.com/x"
    = Ok (Axios,
          options.make "http://example.com/x" "GET" None []
            (Some (Parsed (JNumber 0))) None)
        [].
Proof. by vm_compute. Qed.

Lemma content_type_fallback_example :
  Legacy.getContentTypes Demo.inherited "xml" = "application/x-www-form-urlencoded"
  ∧ Legacy.getContentTypes Demo.inherited "constructor"
    = "function Object() { [native code] }".
Proof.
  split.
  - apply (content_type_fallback Demo.mime_contentType
             Demo.inherited "xml"); done.
  - apply (content_type_fallback Demo.mime_contentType
             Demo.inherited "constructor"); done.
Defined.

Lemma parse_headers_last_example :
  obj_get "a" (parse_headers (["a=1"; "b=2"] ++ ["a=3"])) = Some "3".
Proof.
  destruct (parse_headers_last ["a=1"; "b=2"] "a" "3") as [Hlast _];
    [done..|]. exact Hlast.
Defined.

Lemma sent_url_starts_with_http_example :
  ∃ t o log,
    Demo.sendRequest ∅ Demo.bare "GET" "example.com/x" = Ok (t, o) log
    ∧ startsWith "http" (options.url o) = true.
Proof.
  eexists _, _, _. split; [reflexivity|].
  apply (sent_url_starts_with_http Demo.falsy_number Demo.JSON_parse
           Demo.mime_contentType Demo.boundary Demo.URL_new
           ∅ Demo.bare "GET" "example.com/x" Axios _ []).
  reflexivity.
Defined.

Lemma datafile_overrides_data_and_type_example :
  ∃ t o log,
    Demo.sendRequest {[ "up.bin" := "bytes" ]}
      (commander.make false None false [("content-type", "text/plain")]
         (Given "x=1") (Some "up.bin") (Some "json") None None)
      "POST" "http://example.com/x"
    = Ok (t, o) log
    ∧ options.data o = Some (Multipart (FormData "up.bin" "bytes" None))
    ∧ obj_get "content-type" (options.headers o)
      = Some ("multipart/form-data; boundary=" +:+ Demo.boundary).
Proof.
  apply (datafile_overrides_data_and_type Demo.falsy_number Demo.JSON_parse
           Demo.mime_contentType Demo.boundary Demo.URL_new
           {[ "up.bin" := "bytes" ]} _ "POST" "http://example.com/x"
           "up.bin" "bytes"); reflexivity.
Defined.

Lemma no_data_no_body_example :
  ∃ t o log,
    Demo.sendRequest ∅
      (commander.make false None false [("accept", "text/html")] NotGiven
         None (Some "json") None None)
      "GET" "http://example.com/x"
    = Ok (t, o) log
    ∧ options.data o = None ∧ options.method o = "GET"
    ∧ obj_get "content-type" (options.headers o) = None.
Proof.
  destruct (no_data_no_body Demo.falsy_number Demo.JSON_parse
              Demo.mime_contentType Demo.boundary Demo.URL_new ∅
              (commander.make false None false [("accept", "text/html")]
                 NotGiven None (Some "json") None None)
              "GET" "http://example.com/x")
    as (t & o & log & Hsend & Hdata & Hmethod & Hheaders); [reflexivity..|].
  exists t, o, log. split; [exact Hsend|]. split; [exact Hdata|].
  split; [exact Hmethod|]. apply (Hheaders "content-type"). discriminate.
Defined.

Lemma type_sets_content_type_example :
  ∃ t o log,
    Demo.sendRequest ∅
      (commander.make false None false [("content-type", "text/plain")]
         (Given "name=alice") None (Some "json") None None)
      "POST" "http://example.com/x"
    = Ok (t, o) log
    ∧ obj_get "content-type" (options.headers o)
      = Some "application/json; charset=utf-8".
Proof.
  destruct (type_sets_content_type Demo.falsy_number Demo.JSON_parse
              Demo.mime_contentType Demo.boundary Demo.URL_new ∅
              (commander.make false None false [("content-type", "text/plain")]
                 (Given "name=alice") None (Some "json") None None)
              "POST" "http://example.com/x" "name=alice" "json")
    as (t & o & log & Hsend & Htype & _); [reflexivity..|].
  exists t, o, log. split; [exact Hsend | exact Htype].
Defined.

Lemma missing_datafile_throws_example :
  ∃ log,
    Demo.sendRequest ∅
      (commander.make false None false [] NotGiven (Some "up.bin") None None
         None)
      "POST" "http://example.com/x"
    = Throw (ENOENT "up.bin") log
    ∧ Forall (λ e, is_error e = false) log.
Proof.
  apply (missing_datafile_throws Demo.falsy_number Demo.JSON_parse
           Demo.mime_contentType Demo.boundary Demo.URL_new ∅ _
           "POST" "http://example.com/x" "up.bin"); reflexivity.
Defined.

Lemma proxy_needs_parsable_target_example :
  ∃ log,
    Proxied.sendRequest ∅
      (Proxied.with_proxy "http://user:pw@proxy.local:8080")
      "GET" "example.com/x"
    = Throw (InvalidURL "example.com/x") log.
Proof.
  apply (proxy_needs_parsable_target Demo.falsy_number Demo.JSON_parse
           Demo.mime_contentType Demo.boundary Proxied.URL_new ∅
           (Proxied.with_proxy "http://user:pw@proxy.local:8080")
           "GET" "example.com/x" "http://user:pw@proxy.local:8080"
           (Build_URL "http:" "proxy.local" "8080" "user" "pw"));
    [reflexivity | discriminate | reflexivity..].
Defined.

Lemma proxy_options_and_transport_example :
  ∃ t o log,
    Proxied.sendRequest ∅
      (Proxied.with_proxy "http://user:pw@proxy.local:8080")
      "GET" "https://example.com/x"
    = Ok (t, o) log
    ∧ options.proxy o
      = Some (ProxyOptions "proxy.local" "8080" (Some ("user", "pw")))
    ∧ t = AxiosHttpsProxyFix.
Proof.
  eexists _, _, _. split; [reflexivity|].
  apply (proxy_options_and_transport Demo.falsy_number Demo.JSON_parse
           Demo.mime_contentType Demo.boundary Proxied.URL_new ∅
           (Proxied.with_proxy "http://user:pw@proxy.local:8080")
           "GET" "https://example.com/x" "http://user:pw@proxy.local:8080"
           (Build_URL "http:" "proxy.local" "8080" "user" "pw")
           (Build_URL "https:" "example.com" "" "" "") _ _ []);
    reflexivity.
Defined.

Lemma quiet_unless_verbose_example :
  ∃ t o,
    Demo.sendRequest ∅ (Demo.with_data "name=alice") "GET"
      "http://example.com/x"
    = Ok (t, o)
        [Log Warning (Text "Cannot send data with GET, POST will be used")].
Proof.
  eexists _, _.
  assert (Hsend : ∃ log,
    Demo.sendRequest ∅ (Demo.with_data "name=alice") "GET"
      "http://example.com/x"
    = Ok (Axios,
          options.make "http://example.com/x" "POST" None []
            (Some (Props [("name", "alice")])) None) log)
    by (eexists; reflexivity).
  destruct Hsend as [log Hsend].
  rewrite Hsend. f_equal.
  apply (quiet_unless_verbose Demo.falsy_number Demo.JSON_parse
           Demo.mime_contentType Demo.boundary Demo.URL_new ∅
           (Demo.with_data "name=alice") "GET" "http://example.com/x"
           _ _ log eq_refl Hsend).
Defined.

Lemma cookie_file_overrides_header_example :
  ∃ t o log,
    Demo.sendRequest {[ "jar" := "sid=1; Path=/" ]}
      (Demo.with_cookie [("cookie", "old=0")] "jar")
      "GET" "http://example.com/x"
    = Ok (t, o) log
    ∧ obj_get "cookie" (options.headers o) = Some "sid=1".
Proof.
  eexists _, _, _. split; [reflexivity|].
  apply (cookie_file_overrides_header Demo.falsy_number Demo.JSON_parse
           Demo.mime_contentType Demo.boundary Demo.URL_new
           {[ "jar" := "sid=1; Path=/" ]}
           (Demo.with_cookie [("cookie", "old=0")] "jar")
           "GET" "http://example.com/x" "jar" "sid=1; Path=/" Axios _ []);
    reflexivity.
Defined.

Lemma output_file_hides_response_example :
  Forall (λ e, shows_response e = false)
    (onResponse Demo.falsy_number ∅
       (commander.make true (Some "out.bin") false [] NotGiven None None None
          None)
       (Response [("content-type", "text/plain")] None (Some (JBool true)))
       None None).2.
Proof.
  apply (output_file_hides_response Demo.falsy_number ∅ _ _ None None
           "out.bin"). reflexivity.
Defined.

Lemma run_sends_one_of_six_methods_example :
  ∃ t o log,
    run Demo.falsy_number Demo.JSON_parse Demo.mime_contentType Demo.boundary
      Demo.URL_new ∅ (Demo.with_data "name=alice") "get"
      "http://example.com/x"
    = Ran (Ok (t, o) log)
    ∧ options.method o ∈ ["GET"; "POST"; "PUT"; "DELETE"; "PATCH"; "HEAD"].
Proof.
  eexists _, _, _. split; [reflexivity|].
  eapply (run_sends_one_of_six_methods Demo.falsy_number Demo.JSON_parse
            Demo.mime_contentType Demo.boundary Demo.URL_new ∅
            (Demo.with_data "name=alice") "get" "http://example.com/x").
  reflexivity.
Defined.

Lemma legacy_keeps_url_and_method_example :
  ∃ o log,
    Legacy.sendRequest Demo.JSON_parse Demo.inherited ∅ (Demo.with_data "name=alice")
      "GET" "example.com/x"
    = Ok o log
    ∧ options.url o = "example.com/x" ∧ options.method o = "GET"
    ∧ options.proxy o = None.
Proof.
  apply (legacy_keeps_url_and_method Demo.JSON_parse Demo.inherited ∅
           (Demo.with_data "name=alice") "GET" "example.com/x").
  discriminate.
Defined.

Lemma legacy_and_current_body_agree_example :
  ∃ o' log',
    Legacy.sendRequest Demo.JSON_parse Demo.inherited ∅ (Demo.with_data "name=alice")
      "POST" "http://example.com/x"
    = Ok o' log'
    ∧ options.data o' = Some (Props [("name", "alice")]).
Proof.
  apply (legacy_and_current_body_agree Demo.falsy_number Demo.JSON_parse
           Demo.mime_contentType Demo.boundary Demo.URL_new Demo.inherited ∅
           (Demo.with_data "name=alice") "POST" "http://example.com/x"
           Axios
           (options.make "http://example.com/x" "POST" None []
              (Some (Props [("name", "alice")])) None) []);
    reflexivity.
Defined.

Lemma cookie_file_written_only_for_set_cookie_example :
  (onResponse Demo.falsy_number {[ "jar" := "sid=1" ]}
     (Demo.with_cookie [] "jar") (Response [] None (Some (JBool true)))
     None None).1
  = {[ "jar" := "sid=1" ]}.
Proof.
  destruct (cookie_file_written_only_for_set_cookie Demo.falsy_number
              {[ "jar" := "sid=1" ]} (Demo.with_cookie [] "jar")
              (Response [] None (Some (JBool true))) None None)
    as [_ Hkept]; [reflexivity|].
  apply Hkept. reflexivity.
Defined.
